(** * markdown-ticket CLI: ticket normalizer, MCP client and LLM summarizer

    A shallow embedding of [mdt-cli/ticket_normalizer.py],
    [mdt-cli/mcp_client.py] and [mdt-cli/llm_processor.py], followed by the
    properties of these modules that the design document states.

    Python [str] values are sequences of Unicode code points; they are
    modelled as lists of code points ([N]), so that [len], slicing and the
    non-ASCII bullet of the summarizer are exactly those of the source. *)

From Stdlib Require Import String Ascii.
From Stdlib Require Import List NArith ZArith QArith Bool Lia.
Import ListNotations.

Set Implicit Arguments.
Set Warnings "-register-all".

(* ================================================================== *)
(** * Python strings *)
(* ================================================================== *)

Module PyStr.

Local Open Scope N_scope.

(** A code point, and a string. *)
Abbreviation char := N (only parsing).
Abbreviation str := (list N) (only parsing).

(** An ASCII literal of the source, as code points. *)
Definition lit (s : string) : str := map N_of_ascii (list_ascii_of_string s).

Definition nl : char := 10.

(** [a == b] *)
Fixpoint str_eqb (a b : str) : bool :=
  match a, b with
  | [], [] => true
  | x :: a', y :: b' => (x =? y) && str_eqb a' b'
  | _, _ => false
  end.

(** [bool(s)] of a string. *)
Definition nonempty (s : str) : bool :=
  match s with [] => false | _ :: _ => true end.

(** Code points for which [str.isspace] holds; [strip] and the separator-less
    [split] remove exactly these. *)
Definition space_chars : list char :=
  [9; 10; 11; 12; 13; 28; 29; 30; 31; 32; 133; 160; 5760;
   8192; 8193; 8194; 8195; 8196; 8197; 8198; 8199; 8200; 8201; 8202;
   8232; 8233; 8239; 8287; 12288].

Definition is_space (c : char) : bool := existsb (N.eqb c) space_chars.

Fixpoint drop_while (p : char -> bool) (s : str) : str :=
  match s with
  | [] => []
  | c :: s' => if p c then drop_while p s' else s
  end.

Definition lstrip (s : str) : str := drop_while is_space s.
Definition rstrip (s : str) : str := rev (drop_while is_space (rev s)).

(** [s.strip()] *)
Definition strip (s : str) : str := rstrip (lstrip s).

(** [s.rstrip(chars)] for a one-character [chars]. *)
Definition rstrip_char (c : char) (s : str) : str :=
  rev (drop_while (N.eqb c) (rev s)).

(** [s.startswith(p)] *)
Fixpoint startswith (p s : str) : bool :=
  match p, s with
  | [], _ => true
  | _ :: _, [] => false
  | a :: p', b :: s' => (a =? b) && startswith p' s'
  end.

(** [s.endswith(p)] *)
Definition endswith (p s : str) : bool := startswith (rev p) (rev s).

(** [needle in s] *)
Fixpoint contains (needle s : str) : bool :=
  startswith needle s ||
  match s with
  | [] => false
  | _ :: s' => contains needle s'
  end.

(** [s.split()] : the maximal runs of non-whitespace code points.  [cur] is
    the run being read, last code point first. *)
Fixpoint split_ws_from (cur s : str) : list str :=
  match s with
  | [] => match cur with [] => [] | _ :: _ => [rev cur] end
  | c :: s' =>
      if is_space c
      then match cur with
           | [] => split_ws_from [] s'
           | _ :: _ => rev cur :: split_ws_from [] s'
           end
      else split_ws_from (c :: cur) s'
  end.

Definition split_ws (s : str) : list str := split_ws_from [] s.

(** [s.split(sep)] for a non-empty [sep]: scan from the left, cut at every
    occurrence of [sep] and resume after it.  [skip] counts the code points of
    the occurrence just found that are still to be passed over; [cur] is the
    piece being read, last code point first. *)
Fixpoint split_from (sep : str) (skip : nat) (cur s : str) : list str :=
  match s with
  | [] => [rev cur]
  | c :: s' =>
      match skip with
      | S k => split_from sep k cur s'
      | O =>
          if startswith sep s
          then rev cur :: split_from sep (pred (length sep)) [] s'
          else split_from sep O (c :: cur) s'
      end
  end.

Definition split (sep s : str) : list str := split_from sep O [] s.

(** [sep.join(parts)] *)
Fixpoint join (sep : str) (parts : list str) : str :=
  match parts with
  | [] => []
  | [p] => p
  | p :: rest => p ++ sep ++ join sep rest
  end.

(** [s.replace(old, new)] for a non-empty [old]: the pieces between the
    occurrences of [old], glued with [new]. *)
Definition replace (old new s : str) : str := join new (split old s).

(** [s.split(sep, 1)] for a non-empty [sep]: the text before the first
    occurrence of [sep] and, when there is one, the text after it. *)
Fixpoint split_once_from (sep cur s : str) : str * option str :=
  match s with
  | [] => (rev cur, None)
  | c :: s' =>
      if startswith sep s
      then (rev cur, Some (skipn (length sep) s))
      else split_once_from sep (c :: cur) s'
  end.

Definition split_once (sep s : str) : str * option str :=
  split_once_from sep [] s.

(** [s.rsplit(c, 1)[0]] for a one-character separator: the text before the
    last occurrence of [c], or all of [s] when [c] does not occur. *)
Fixpoint after_first (c : char) (s : str) : option str :=
  match s with
  | [] => None
  | x :: s' => if x =? c then Some s' else after_first c s'
  end.

Definition rsplit1_head (c : char) (s : str) : str :=
  match after_first c (rev s) with
  | Some r => rev r
  | None => s
  end.

(** ** Case mappings

    [str.lower] and [str.upper] are exact on ASCII and on every non-ASCII code
    point whose image contains an ASCII code point (the tables below list
    them all).  The remaining non-ASCII code points are kept as they are:
    Python maps them to non-ASCII code points again, none of which is a
    decimal digit or whitespace, and the source only ever compares the result
    with ASCII text ([in] tests against ASCII phrases, the pattern
    [[A-Z]+-\d+]). *)

Definition lower_char (c : char) : str :=
  if (65 <=? c) && (c <=? 90) then [c + 32]
  else if c =? 304 then [105; 775]
  else if c =? 8490 then [107]
  else [c].

Definition lower (s : str) : str := flat_map lower_char s.

Definition upper_special : list (char * str) :=
  [ (223, [83; 83]); (305, [73]); (329, [700; 78]); (383, [83]);
    (496, [74; 780]); (7830, [72; 817]); (7831, [84; 776]);
    (7832, [87; 778]); (7833, [89; 778]); (7834, [65; 702]);
    (64256, [70; 70]); (64257, [70; 73]); (64258, [70; 76]);
    (64259, [70; 70; 73]); (64260, [70; 70; 76]); (64261, [83; 84]);
    (64262, [83; 84]) ].

Fixpoint assoc (A : Type) (c : char) (t : list (char * A)) : option A :=
  match t with
  | [] => None
  | (k, v) :: t' => if c =? k then Some v else assoc c t'
  end.

Definition upper_char (c : char) : str :=
  if (97 <=? c) && (c <=? 122) then [c - 32]
  else match assoc c upper_special with
       | Some u => u
       | None => [c]
       end.

Definition upper (s : str) : str := flat_map upper_char s.

(** [s.zfill(width)] *)
Definition zfill (width : nat) (s : str) : str :=
  if (width <=? length s)%nat then s
  else
    let fill := repeat 48 (width - length s) in
    match s with
    | c :: s' => if (c =? 43) || (c =? 45) then c :: fill ++ s' else fill ++ s
    | [] => fill
    end.

End PyStr.

(* ================================================================== *)
(** * ticket_normalizer.py *)
(* ================================================================== *)

Module TicketNormalizer.
Import PyStr.
Local Open Scope N_scope.

(** The class [[A-Z]] of the pattern. *)
Definition is_upper_AZ (c : char) : bool := (65 <=? c) && (c <=? 90).

(** The class [\d] of a [str] pattern: the code points of Unicode category
    Nd, as inclusive ranges (Unicode 14, the table of CPython 3.11). *)
Definition decimal_ranges : list (char * char) :=
  [ (48, 57); (1632, 1641); (1776, 1785); (1984, 1993); (2406, 2415);
    (2534, 2543); (2662, 2671); (2790, 2799); (2918, 2927); (3046, 3055);
    (3174, 3183); (3302, 3311); (3430, 3439); (3558, 3567); (3664, 3673);
    (3792, 3801); (3872, 3881); (4160, 4169); (4240, 4249); (6112, 6121);
    (6160, 6169); (6470, 6479); (6608, 6617); (6784, 6793); (6800, 6809);
    (6992, 7001); (7088, 7097); (7232, 7241); (7248, 7257); (42528, 42537);
    (43216, 43225); (43264, 43273); (43472, 43481); (43504, 43513);
    (43600, 43609); (44016, 44025); (65296, 65305); (66720, 66729);
    (68912, 68921); (69734, 69743); (69872, 69881); (69942, 69951);
    (70096, 70105); (70384, 70393); (70736, 70745); (70864, 70873);
    (71248, 71257); (71360, 71369); (71472, 71481); (71904, 71913);
    (72016, 72025); (72784, 72793); (73040, 73049); (73120, 73129);
    (92768, 92777); (92864, 92873); (93008, 93017); (120782, 120831);
    (123200, 123209); (123632, 123641); (125264, 125273);
    (130032, 130041) ].

Definition in_range (c : char) (r : char * char) : bool :=
  (fst r <=? c) && (c <=? snd r).

Definition is_decimal (c : char) : bool := existsb (in_range c) decimal_ranges.

(** The longest prefix of [s] in the class [p], and the rest. *)
Fixpoint span (p : char -> bool) (s : str) : str * str :=
  match s with
  | [] => ([], [])
  | c :: s' =>
      if p c then let (a, b) := span p s' in (c :: a, b) else ([], s)
  end.

(** [re.match(r'^([A-Z]+)-(\d+)$', s)] and its two groups.  The classes
    [[A-Z]], [-] and [\d] are pairwise disjoint, so the greedy match is the
    only one; [$] matches at the end and also just before a final newline. *)
Definition re_match (s : str) : option (str * str) :=
  let (project, r1) := span is_upper_AZ s in
  match project, r1 with
  | _ :: _, 45 :: r2 =>
      let (number, r3) := span is_decimal r2 in
      match number, r3 with
      | _ :: _, [] => Some (project, number)
      | _ :: _, [10] => Some (project, number)
      | _, _ => None
      end
  | _, _ => None
  end.

(** [TicketNormalizer.normalize] *)
Definition normalize (ticket_id : str) : option (str * str) :=
  let ticket_id := upper (strip ticket_id) in
  match re_match ticket_id with
  | None => None
  | Some (project, number) =>
      let normalized_number := zfill 3 number in
      Some (project, normalized_number)
  end.

(** The canonical key built from the pair, [f"{project}-{number}"]
    (mdt.py, [full_key]). *)
Definition format_key (project number : str) : str :=
  project ++ lit "-" ++ number.

End TicketNormalizer.

(* ================================================================== *)
(** * mcp_client.py *)
(* ================================================================== *)

Module MCPClient.
Import PyStr.
Local Open Scope N_scope.

(** ** Python values and dictionaries *)

(** The values [json.loads] produces.  A [dict] is the list of its items; the
    first binding of a key is the one the dictionary holds.  A float is kept
    as the rational it denotes. *)
Inductive pyval : Type :=
| PNone
| PBool (b : bool)
| PInt (z : Z)
| PFloat (q : Q)
| PStr (s : str)
| PList (l : list pyval)
| PDict (d : list (str * pyval)).

(** [d.get(k)], and with [k in d] as [dict_get k d <> None]. *)
Fixpoint dict_get (A : Type) (k : str) (d : list (str * A)) : option A :=
  match d with
  | [] => None
  | (k', v) :: d' => if str_eqb k k' then Some v else dict_get k d'
  end.

(** [d[k] = v] *)
Fixpoint dict_set (A : Type) (k : str) (v : A) (d : list (str * A))
  : list (str * A) :=
  match d with
  | [] => [(k, v)]
  | (k', v') :: d' =>
      if str_eqb k k' then (k, v) :: d' else (k', v') :: dict_set k v d'
  end.

(** [d.get(k, default)] *)
Definition dict_get_default (A : Type) (k : str) (default : A)
  (d : list (str * A)) : A :=
  match dict_get k d with Some v => v | None => default end.

(** [bool(v)] *)
Definition truthy (v : pyval) : bool :=
  match v with
  | PNone => false
  | PBool b => b
  | PInt z => negb (Z.eqb z 0)
  | PFloat q => negb (Qeq_bool q 0)
  | PStr s => nonempty s
  | PList l => match l with [] => false | _ :: _ => true end
  | PDict d => match d with [] => false | _ :: _ => true end
  end.

Definition is_str (s : str) (v : pyval) : bool :=
  match v with PStr t => str_eqb s t | _ => false end.

(** ** Exceptions *)

(** The exceptions that leave the client's methods: [MCPClientError] by its
    message, and [OtherException] for any other [Exception] raised inside a
    [try] body ([TypeError], [AttributeError], [OSError], ...). *)
Inductive exn : Type :=
| ServerError (error_msg : str)      (* "MCP server error: ..." *)
| NoJsonResponse                     (* "No JSON response found ..." *)
| ToolError (payload : pyval)        (* "MCP tool error: ..." *)
| InvalidFormat                      (* "Invalid MCP response format" *)
| InvalidJson                        (* "Invalid JSON response from MCP server: ..." *)
| OtherException
| Unexpected (e : exn)               (* "Unexpected error calling MCP server: ..." *)
| ServerTimeout                      (* "MCP server timeout" *)
| ServerNotFound                     (* "MCP server not found at ..." *)
| FetchError (e : exn).              (* "Error fetching ticket ...: ..." *)

Inductive result (A : Type) : Type :=
| Ok (a : A)
| Raise (e : exn).
Arguments Raise {A} e.

(** ** TicketData *)

Record TicketData : Type := mkTicketData {
  key : str;
  title : str;
  type : str;
  priority : str;
  status : str;
  description : option str;
  rationale : option str
}.

(** The two icon literals, code point by code point as they stand in the
    source file. *)
Definition section_icon : str := [240; 376; 8220; 8211].
Definition header_icon : str := [240; 376; 8220; 8222].

(** ** _extract_section_content *)

Fixpoint extract_lines (capture : bool) (content_lines : list str)
  (lines : list str) : list str :=
  match lines with
  | [] => content_lines
  | line :: rest =>
      if str_eqb (strip line) (lit "---") then
        if capture then content_lines
        else extract_lines true content_lines rest
      else if capture then
        if nonempty (strip line)
           && negb (startswith section_icon line)
           && negb (startswith (lit "**Section:") line)
           && negb (startswith (lit "**Content Length:") line)
        then extract_lines capture (content_lines ++ [line]) rest
        else extract_lines capture content_lines rest
      else extract_lines capture content_lines rest
  end.

Definition _extract_section_content (response_text : str) : str :=
  let lines := split [nl] response_text in
  strip (join [nl] (extract_lines false [] lines)).

(** ** _parse_cr_response *)

Definition parse_line (attrs : list (str * str)) (line : str)
  : list (str * str) :=
  let line := strip line in
  if startswith (header_icon ++ lit " **") line && contains (lit " - ") line
  then
    match split_once (lit " - ") line with
    | (_, Some rest) =>
        let title := rstrip_char 42 rest in
        dict_set (lit "title") (strip title) attrs
    | (_, None) => attrs
    end
  else if startswith (lit "- Status:") line then
    dict_set (lit "status") (strip (replace (lit "- Status:") [] line)) attrs
  else if startswith (lit "- Type:") line then
    dict_set (lit "type") (strip (replace (lit "- Type:") [] line)) attrs
  else if startswith (lit "- Priority:") line then
    dict_set (lit "priority") (strip (replace (lit "- Priority:") [] line)) attrs
  else attrs.

Definition _parse_cr_response (response_text key : str) : list (str * str) :=
  let attrs :=
    [ (lit "key", key); (lit "title", lit "No Title");
      (lit "type", lit "Unknown"); (lit "priority", lit "Medium");
      (lit "status", lit "Unknown") ] in
  fold_left parse_line (split [nl] response_text) attrs.

(** ** _call_mcp_tool *)

(** What became of the child process: [Popen] did not find the executable,
    [Popen] or [communicate] raised something else, [communicate] timed
    out, or the process exited. *)
Inductive process_run : Type :=
| NotFound
| RunFailed
| TimedOut
| Exited (returncode : Z) (stdout stderr : str).

(** [text_content += item["text"]] over the content items; a text that is not
    a [str] makes [+=] raise [TypeError]. *)
Fixpoint concat_text (text_content : str) (items : list pyval) : result str :=
  match items with
  | [] => Ok text_content
  | item :: rest =>
      match item with
      | PDict d =>
          match dict_get (lit "text") d with
          | Some (PStr t) => concat_text (text_content ++ t) rest
          | Some _ => Raise OtherException
          | None => concat_text text_content rest
          end
      | _ => concat_text text_content rest
      end
  end.

(** The value returned for [response["result"]]. *)
Definition unwrap_result (result : pyval) : MCPClient.result pyval :=
  match result with
  | PDict d =>
      match dict_get (lit "content") d with
      | Some (PList (item :: items)) =>
          match concat_text [] (item :: items) with
          | Ok text_content => Ok (PStr text_content)
          | Raise e => Raise e
          end
      | _ => Ok result
      end
  | _ => Ok result
  end.

(** The body of the inner [try] once [json.loads] has returned.  A response
    that is not a [dict] cannot be indexed by a key: the [in] tests work on a
    list or a string, and every other step raises [TypeError]. *)
Definition handle_response (response : pyval) : result pyval :=
  match response with
  | PDict env =>
      match dict_get (lit "error") env with
      | Some payload => Raise (ToolError payload)
      | None =>
          match dict_get (lit "result") env with
          | Some result => unwrap_result result
          | None => Raise InvalidFormat
          end
      end
  | PList l =>
      if existsb (is_str (lit "error")) l || existsb (is_str (lit "result")) l
      then Raise OtherException else Raise InvalidFormat
  | PStr s =>
      if contains (lit "error") s || contains (lit "result") s
      then Raise OtherException else Raise InvalidFormat
  | _ => Raise OtherException
  end.

(** [for line in reversed(lines)]: the last line that starts with a brace. *)
Fixpoint find_json_line (reversed_lines : list str) : option str :=
  match reversed_lines with
  | [] => None
  | line :: rest =>
      if startswith (lit "{") (strip line) then Some (strip line)
      else find_json_line rest
  end.

(** What [json.loads] does with a line: it returns a value, raises
    [JSONDecodeError], or raises something else ([RecursionError] on deep
    nesting, a plain [ValueError] on an integer with too many digits). *)
Inductive json_result : Type :=
| JsonValue (value : pyval)
| JsonDecodeError
| JsonOtherError.

(** The two warnings the client prints, by the values that go into their
    text: "Warning: Could not fetch section ... for ...: ..." and
    "Warning: Could not fetch sections for ...: ...". *)
Inductive warning : Type :=
| SectionWarning (section_name key : str) (e : exn)
| SectionsWarning (key : str) (e : exn).

Section Client.

(** [json.loads]; the operating system, which runs the server on a request;
    and the output stream: [stdout_prints printed w] tells whether [print]
    returns for the warning [w] after the warnings [printed], and when it does
    not, [print] raises (the stream cannot encode the text, or is closed). *)
Variable json_loads : str -> json_result.
Variable run_server : pyval -> process_run.
Variable stdout_prints : list warning -> warning -> bool.

Definition make_request (tool_name : str) (params : list (str * pyval))
  : pyval :=
  PDict [ (lit "jsonrpc", PStr (lit "2.0"));
          (lit "id", PInt 1);
          (lit "method", PStr (lit "tools/call"));
          (lit "params", PDict [ (lit "name", PStr tool_name);
                                 (lit "arguments", PDict params) ]) ].

(** [except Exception as e: raise MCPClientError(f"Unexpected error ...")] *)
Definition or_unexpected (A : Type) (r : result A) : result A :=
  match r with
  | Ok a => Ok a
  | Raise e => Raise (Unexpected e)
  end.

Definition _call_mcp_tool (tool_name : str) (params : list (str * pyval))
  : result pyval :=
  match run_server (make_request tool_name params) with
  | TimedOut => Raise ServerTimeout
  | NotFound => Raise ServerNotFound
  | RunFailed => Raise (Unexpected OtherException)
  | Exited returncode stdout stderr =>
      or_unexpected
        (if negb (Z.eqb returncode 0) then
           let error_msg :=
             if nonempty stderr then strip stderr else lit "Unknown error" in
           Raise (ServerError error_msg)
         else
           let lines := split [nl] (strip stdout) in
           match find_json_line (rev lines) with
           | None => Raise NoJsonResponse
           | Some json_line =>
               match json_loads json_line with
               | JsonDecodeError => Raise InvalidJson
               | JsonOtherError => Raise OtherException
               | JsonValue response => handle_response response
               end
           end)
  end.

(** ** _get_ticket_sections *)

Definition section_names : list str :=
  [lit "## Description"; lit "## Rationale"].

Definition section_params (project key section_name : str)
  : list (str * pyval) :=
  [ (lit "project", PStr project); (lit "key", PStr key);
    (lit "section", PStr section_name) ].

(** The [try] body of one turn of the loop over [section_names]: the
    [sections] dictionary after it, or the exception it raises (that of the
    call, or [AttributeError] when the content has no [split]). *)
Definition fetch_section (project key : str) (sections : list (str * str))
  (section_name : str) : result (list (str * str)) :=
  match _call_mcp_tool (lit "get_cr_section")
          (section_params project key section_name) with
  | Raise e => Raise e
  | Ok content =>
      if truthy content then
        match content with
        | PStr text =>
            let extracted_content := _extract_section_content text in
            if nonempty extracted_content then
              let simple_name := lower (replace (lit "## ") [] section_name) in
              Ok (dict_set simple_name extracted_content sections)
            else Ok sections
        | _ => Raise OtherException
        end
      else Ok sections
  end.

(** The loop over the remaining section names.  When a turn raises, its
    handler prints the section warning and the loop goes on; when that
    [print] raises, the exception leaves the loop.  The result is the
    dictionary, the warnings printed, and the exception that left the loop,
    if one did. *)
Fixpoint fetch_sections (project key : str) (names : list str)
  (sections : list (str * str)) (printed : list warning)
  : list (str * str) * list warning * option exn :=
  match names with
  | [] => (sections, printed, None)
  | section_name :: rest =>
      match fetch_section project key sections section_name with
      | Ok sections' => fetch_sections project key rest sections' printed
      | Raise e =>
          let w := SectionWarning section_name key e in
          if stdout_prints printed w
          then fetch_sections project key rest sections (printed ++ [w])
          else (sections, printed, Some OtherException)
      end
  end.

(** [_get_ticket_sections] with the warnings it prints.  An exception that
    left the loop is caught by the outer handler, which prints the second
    warning and lets the function return the dictionary; when that [print]
    raises too, the function raises. *)
Definition sections_and_warnings (project key : str)
  : result (list (str * str)) * list warning :=
  match fetch_sections project key section_names [] [] with
  | (sections, printed, None) => (Ok sections, printed)
  | (sections, printed, Some e) =>
      let w := SectionsWarning key e in
      if stdout_prints printed w then (Ok sections, printed ++ [w])
      else (Raise OtherException, printed)
  end.

Definition _get_ticket_sections (project key : str)
  : result (list (str * str)) :=
  fst (sections_and_warnings project key).

(** ** get_ticket *)

Definition get_ticket (project key : str) : result (option TicketData) :=
  match _call_mcp_tool (lit "get_cr")
          [ (lit "project", PStr project); (lit "key", PStr key) ] with
  | Raise e => Raise (FetchError e)
  | Ok attrs_text =>
      if negb (truthy attrs_text) then Ok None
      else
        match attrs_text with
        | PStr text =>
            let attrs := _parse_cr_response text key in
            match _get_ticket_sections project key with
            | Raise e => Raise (FetchError e)
            | Ok sections =>
                Ok (Some
                  {| key := dict_get_default (lit "key") key attrs;
                     title :=
                       dict_get_default (lit "title") (lit "No Title") attrs;
                     type := dict_get_default (lit "type") (lit "Unknown") attrs;
                     priority :=
                       dict_get_default (lit "priority") (lit "Medium") attrs;
                     status :=
                       dict_get_default (lit "status") (lit "Unknown") attrs;
                     description := dict_get (lit "description") sections;
                     rationale := dict_get (lit "rationale") sections |})
            end
        | _ => Raise (FetchError OtherException)
        end
  end.

End Client.

End MCPClient.

(* ================================================================== *)
(** * llm_processor.py *)
(* ================================================================== *)

Module LLMProcessor.
Import PyStr.
Local Open Scope N_scope.

Definition bullet : char := 8226.
Definition space : char := 32.
Definition ellipsis : str := lit "...".

(** ** Validation of a generated summary *)

Definition _is_valid_summary (summary : str) : bool :=
  if negb (nonempty summary) then false
  else
    let word_count := length (split_ws summary) in
    if (word_count <? 5)%nat || (30 <? word_count)%nat then false
    else if (250 <? length summary)%nat then false
    else if contains (lit "###") summary || contains (lit "##") summary
    then false
    else
      let lines :=
        map strip
          (filter (fun line => nonempty (strip line)) (split [nl] summary)) in
      if (2 <? length lines)%nat then false
      else if contains (lit "- ") summary
              || contains [bullet; space] summary
              || contains (lit "* ") summary
      then false
      else true.

(** ** The extractive fallback *)

Definition any_in (phrases : list str) (text : str) : bool :=
  existsb (fun phrase => contains phrase text) phrases.

Definition _should_skip_line (line : str) : bool :=
  if startswith (lit "#") line
     || (startswith (lit "**") line && endswith (lit "**") line)
  then true
  else
    let section_headers :=
      [ lit "problem statement"; lit "current state"; lit "desired state";
        lit "current state:"; lit "desired state:"; lit "solution analysis";
        lit "implementation"; lit "acceptance criteria"; lit "rationale" ] in
    if any_in section_headers (lower line) then true
    else if startswith (lit "-") line || startswith (lit "*") line
            || startswith [bullet] line
    then true
    else
      let metadata_keywords :=
        [ lit "efficiency:"; lit "oversight:"; lit "consistency:";
          lit "scalability:"; lit "each project has its own";
          lit "users must manually navigate" ] in
      any_in metadata_keywords (lower line).

Definition _is_section_header (line : str) : bool :=
  let section_headers :=
    [ lit "problem statement"; lit "current state"; lit "desired state";
      lit "solution analysis"; lit "implementation";
      lit "acceptance criteria" ] in
  any_in section_headers (lower line).

Definition _is_meaningful_line (line : str) : bool :=
  (20 <? length line)%nat && negb (startswith (lit "-") line).

Definition _clean_line (line : str) : str :=
  strip (replace (lit "*") [] (replace (lit "**") [] line)).

(** The loop of [_extract_meaningful_sentences] over the remaining [lines],
    with its two variables. *)
Fixpoint meaningful_loop (skip_section : bool) (filtered_lines : list str)
  (lines : list str) : list str :=
  match lines with
  | [] => filtered_lines
  | line :: rest =>
      let line := strip line in
      if negb (nonempty line) then
        meaningful_loop skip_section filtered_lines rest
      else if _should_skip_line line then
        meaningful_loop
          (if _is_section_header line then true else skip_section)
          filtered_lines rest
      else
        let '(filtered_lines, skip_section) :=
          if negb skip_section && _is_meaningful_line line then
            let clean_line := _clean_line line in
            if (30 <? length clean_line)%nat
            then (filtered_lines ++ [clean_line], false)
            else (filtered_lines, skip_section)
          else (filtered_lines, skip_section) in
        if (3 <=? length filtered_lines)%nat then filtered_lines
        else meaningful_loop skip_section filtered_lines rest
  end.

Definition _extract_meaningful_sentences (content : str) : list str :=
  meaningful_loop false [] (split [nl] content).

Definition _extract_simple_sentences (content : str) : list str :=
  let sentences :=
    map strip
      (filter (fun s => nonempty (strip s) && (20 <? length (strip s))%nat)
         (split (lit ". ") content)) in
  let problematic_phrases :=
    [ lit "managing multiple projects"; lit "each project has";
      lit "users must" ] in
  match find (fun sentence => negb (any_in problematic_phrases (lower sentence)))
          (firstn 3 sentences) with
  | Some sentence => [sentence]
  | None => firstn 1 sentences
  end.

Definition unable_to_summarize : str :=
  lit "Unable to generate summary from content".

Definition _format_summary_from_sentences (sentences : list str) : str :=
  match sentences with
  | [] => unable_to_summarize
  | _ :: _ =>
      let summary_text := join [space] (firstn 2 sentences) in
      if (150 <? length summary_text)%nat then
        rsplit1_head space (firstn 150 summary_text) ++ ellipsis
      else if (120 <? length summary_text)%nat then
        rsplit1_head space (firstn 120 summary_text) ++ ellipsis
      else summary_text
  end.

(** [_fallback_summary].  Its [try] body only splits, slices and joins
    strings, none of which raises, so the [except] branch is never entered. *)
Definition _fallback_summary (content : str) : str :=
  let meaningful_sentences := _extract_meaningful_sentences content in
  match meaningful_sentences with
  | _ :: _ => _format_summary_from_sentences meaningful_sentences
  | [] =>
      let simple_sentences := _extract_simple_sentences content in
      match simple_sentences with
      | _ :: _ => _format_summary_from_sentences simple_sentences
      | [] => unable_to_summarize
      end
  end.

(** ** Generation attempts *)

Definition system_prompt_text : str :=
  join [nl]
    [ [];
      lit "You are a ticket-document reviewer, you provide professional short summary of a user text in 10-20 words.";
      lit "Make a short summary of the user's text and explain:";
      lit "- The essence of the fix or improvement being discussed in the document.";
      lit "- Add technical specifics only.";
      lit "- Provide straightforward text.";
      lit "Restrictions:";
      lit "- DO NOT mention information reflected in title content.";
      lit "- DO NOT add comments.";
      lit "- DO not use markdown formatting.";
      [];
      lit "Your summary:" ].

Definition _get_system_prompt : str := strip system_prompt_text.

Definition attempt2_suffix : str :=
  [nl; nl] ++
  lit "Summarize the key improvement or fix being described above in 10-20 words.".

Definition attempt3_prompt : str :=
  lit "Create a dashboard for managing multiple projects. What does this solve? Answer in 10 words maximum.".

(** [_get_attempt_params]: user text, temperature, max_tokens. *)
Definition _get_attempt_params (content : str) (attempt : nat)
  : str * Q * Z :=
  match attempt with
  | 1%nat => (content, 0.3%Q, 150%Z)
  | 2%nat => (firstn 800 content ++ attempt2_suffix, 0.2%Q, 100%Z)
  | _ => (attempt3_prompt, 0.0%Q, 40%Z)
  end.

(** What one generation call carries to the backend. *)
Record request : Type := mkRequest {
  system_text : str;
  user_text : str;
  temperature : Q;
  max_tokens : Z
}.

(** ** A monad for the calls to the backend

    A computation reads and extends the log of the requests made so far and
    either returns a value or raises an [Exception]; the log is kept when it
    raises. *)
Inductive outcome (A : Type) : Type :=
| Ret (a : A)
| Exc.
Arguments Exc {A}.

Definition M (A : Type) : Type := list request -> outcome A * list request.

Definition ret (A : Type) (a : A) : M A := fun log => (Ret a, log).

Definition bind (A B : Type) (m : M A) (k : A -> M B) : M B :=
  fun log =>
    match m log with
    | (Ret a, log') => k a log'
    | (Exc, log') => (Exc, log')
    end.

(** [try: m  except Exception: handler] *)
Definition try_except (A : Type) (m : M A) (handler : M A) : M A :=
  fun log =>
    match m log with
    | (Ret a, log') => (Ret a, log')
    | (Exc, log') => handler log'
    end.

Notation "x <- m ;; k" := (bind m (fun x => k))
  (at level 61, m at next level, right associativity).

Section Backend.

(** The generation backend (model construction, the three role blocks and
    [gen]): on a request, after the requests logged so far, it raises or
    yields [lm['output']] as text. *)
Variable backend : list request -> request -> outcome str.

Definition _attempt_summary (content system_prompt : str) (attempt : nat)
  : M str :=
  fun log =>
    let '(user_content, temp, max_tokens) :=
      _get_attempt_params content attempt in
    let req := mkRequest system_prompt user_content temp max_tokens in
    match backend log req with
    | Ret output => (Ret (strip output), log ++ [req])
    | Exc => (Exc, log ++ [req])
    end.

(** The [for attempt in range(1, 4)] loop over the remaining attempts.  The
    [try] statement of one turn yields [Some s] when it executes [return s]
    and [None] when the loop goes on. *)
Fixpoint attempts_loop (content system_prompt : str) (attempts : list nat)
  : M str :=
  match attempts with
  | [] => ret (_fallback_summary content)
  | attempt :: rest =>
      returned <-
        try_except
          (result <- _attempt_summary content system_prompt attempt ;;
           if nonempty result && _is_valid_summary result
           then ret (Some result) else ret None)
          (if (attempt =? 3)%nat then ret (Some (_fallback_summary content))
           else ret None) ;;
      match returned with
      | Some summary => ret summary
      | None => attempts_loop content system_prompt rest
      end
  end.

Definition _generate_summary_with_attempts (content : str) : M str :=
  let system_prompt := _get_system_prompt in
  attempts_loop content system_prompt [1; 2; 3]%nat.

Definition _single_summary_attempt (content : str) : M str :=
  let system_prompt := _get_system_prompt in
  try_except
    (result <- _attempt_summary content system_prompt 1 ;;
     if nonempty result then ret result else ret (_fallback_summary content))
    (ret (_fallback_summary content)).

Definition no_content : str := lit "No content available for summary".

Definition generate_summary (description rationale : str) : M str :=
  let dispatch (content : str) : M str :=
    if (500 <? length content)%nat
    then _generate_summary_with_attempts content
    else _single_summary_attempt content in
  if nonempty description && nonempty rationale then
    dispatch (lit "Description: " ++ description ++ [nl; nl]
              ++ lit "Rationale: " ++ rationale)
  else if nonempty description then dispatch description
  else if nonempty rationale then dispatch rationale
  else ret no_content.

End Backend.

End LLMProcessor.

(* ================================================================== *)
(** * Properties *)
(* ================================================================== *)

Unset Implicit Arguments.

(** ** Facts about the string operations *)

Section StringFacts.
Import PyStr.
Local Open Scope N_scope.

Lemma startswith_app (p t : str) : startswith p (p ++ t) = true.
Proof.
  induction p as [|a p IH]; simpl; [reflexivity|].
  now rewrite N.eqb_refl, IH.
Qed.

Lemma startswith_inv (p s : str) :
  startswith p s = true -> exists t, s = p ++ t.
Proof.
  revert s; induction p as [|a p IH]; intros s H.
  - now exists s.
  - destruct s as [|b s]; simpl in H; [discriminate|].
    apply andb_true_iff in H as [Hab Hps].
    apply N.eqb_eq in Hab; subst b.
    destruct (IH _ Hps) as [t ->]. now exists t.
Qed.

Lemma contains_startswith (needle s : str) :
  startswith needle s = true -> contains needle s = true.
Proof. intros H. destruct s; simpl; now rewrite H. Qed.

(** [needle in s] holds exactly when [s] is some text, the needle, some
    text. *)
Lemma contains_iff (needle s : str) :
  contains needle s = true <-> exists a b, s = a ++ needle ++ b.
Proof.
  split.
  - induction s as [|c s IH]; simpl; intros H.
    + rewrite orb_false_r in H. apply startswith_inv in H as [t Ht].
      now exists [], t.
    + apply orb_true_iff in H as [H|H].
      * apply startswith_inv in H as [t Ht]. now exists [], t.
      * destruct (IH H) as (a & b & ->). now exists (c :: a), b.
  - intros (a & b & ->). induction a as [|c a IH].
    + rewrite app_nil_l. apply contains_startswith, startswith_app.
    + simpl. now rewrite IH, orb_true_r.
Qed.

Lemma drop_while_all (p : char -> bool) (s : str) :
  drop_while p s = [] <-> forallb p s = true.
Proof.
  induction s as [|c s IH]; simpl; [tauto|].
  destruct (p c); simpl; [exact IH|]. split; discriminate.
Qed.

(** A line is blank for [strip] exactly when it is made of whitespace. *)
Lemma strip_nil_iff (s : str) : strip s = [] <-> forallb is_space s = true.
Proof.
  unfold strip, rstrip, lstrip. split.
  - intros H. apply (f_equal (@rev char)) in H.
    rewrite rev_involutive in H. simpl in H.
    apply drop_while_all in H. rewrite forallb_forall in H.
    induction s as [|c s IH]; [reflexivity|]. simpl in *.
    destruct (is_space c) eqn:Ec; simpl.
    + apply IH, H.
    + exfalso. specialize (H c). rewrite Ec in H.
      assert (In c (rev (c :: s))) by (apply in_rev; rewrite rev_involutive; now left).
      now specialize (H H0).
  - intros H. apply drop_while_all in H. now rewrite H.
Qed.

Lemma drop_while_head (p : char -> bool) (c : char) (s : str) :
  p c = false -> drop_while p (c :: s) = c :: s.
Proof. intros H; simpl; now rewrite H. Qed.

(** [strip] leaves alone a text that neither starts nor ends with
    whitespace. *)
Lemma strip_fixed (c z : char) (m : str) :
  is_space c = false -> is_space z = false ->
  strip (c :: m ++ [z]) = c :: m ++ [z].
Proof.
  intros Hc Hz. unfold strip, lstrip, rstrip.
  rewrite (drop_while_head _ _ _ Hc).
  replace (rev (c :: m ++ [z])) with (z :: rev (c :: m)).
  - rewrite (drop_while_head _ _ _ Hz).
    change (z :: rev (c :: m)) with (rev [z] ++ rev (c :: m)).
    now rewrite <- rev_app_distr, rev_involutive.
  - change (c :: m ++ [z]) with ((c :: m) ++ [z]).
    now rewrite rev_app_distr.
Qed.

(** *** [split] and [join] *)

Lemma split_from_cons (sep : str) (skip : nat) (cur s : str) :
  exists piece pieces, split_from sep skip cur s = piece :: pieces.
Proof.
  revert skip cur. induction s as [|c s IH]; intros skip cur;
    cbn [split_from].
  - now exists (rev cur), [].
  - destruct skip as [|k]; [|apply IH].
    destruct (startswith sep (c :: s)); [|apply IH]. eauto.
Qed.

Lemma split_from_skip (sep : str) (k : nat) (cur s : str) :
  (k <= length s)%nat ->
  split_from sep k cur s = split_from sep 0 cur (skipn k s).
Proof.
  revert s. induction k as [|k IH]; intros s Hk; [reflexivity|].
  destruct s as [|c s]; simpl in Hk; [lia|].
  simpl. apply IH. lia.
Qed.

Lemma join_split_from (sep : str) (n : nat) :
  sep <> [] ->
  forall s cur, (length s <= n)%nat ->
    join sep (split_from sep 0 cur s) = rev cur ++ s.
Proof.
  intros Hsep. induction n as [|n IH]; intros s cur Hn.
  - destruct s; [|simpl in Hn; lia]. simpl. now rewrite app_nil_r.
  - destruct s as [|c s]; [simpl; now rewrite app_nil_r|].
    cbn [split_from].
    destruct (startswith sep (c :: s)) eqn:Ep.
    + apply startswith_inv in Ep as [t Et].
      destruct sep as [|x sep']; [congruence|].
      simpl in Et. inversion Et; subst x s. clear Et.
      cbn [length pred].
      rewrite split_from_skip by (rewrite length_app; lia).
      rewrite skipn_app, skipn_all, Nat.sub_diag. simpl skipn.
      rewrite app_nil_l.
      destruct (split_from_cons (c :: sep') 0 [] t) as (p & ps & E).
      pose proof (IH t []) as Ht. rewrite E in Ht |- *.
      change (join (c :: sep') (rev cur :: p :: ps))
        with (rev cur ++ (c :: sep') ++ join (c :: sep') (p :: ps)).
      rewrite Ht.
      * reflexivity.
      * simpl in Hn. rewrite length_app in Hn. lia.
    + rewrite IH by (simpl in Hn; lia).
      simpl. now rewrite <- app_assoc.
Qed.

(** Gluing the pieces of [split] back with the separator gives the text. *)
Lemma join_split (sep s : str) : sep <> [] -> join sep (split sep s) = s.
Proof.
  intros Hsep. unfold split.
  now rewrite (join_split_from sep (length s) Hsep s []).
Qed.

Lemma upper_fixed (s : str) :
  Forall (fun c => upper_char c = [c]) s -> upper s = s.
Proof.
  induction 1 as [|c s Hc _ IH]; [reflexivity|].
  unfold upper in *; simpl. now rewrite Hc, IH.
Qed.

Lemma assoc_some_in (A : Type) (c : char) (t : list (char * A)) (v : A) :
  assoc c t = Some v -> In c (map fst t).
Proof.
  induction t as [|[k w] t IH]; simpl; [discriminate|].
  destruct (N.eqb_spec c k); intros H; [now left | right; auto].
Qed.

Lemma is_space_in (c : char) : is_space c = true -> In c space_chars.
Proof.
  unfold is_space. rewrite existsb_exists.
  intros (x & Hx & E). apply N.eqb_eq in E. now subst.
Qed.

End StringFacts.

(** ** The ticket pattern *)

Section NormalizerFacts.
Import PyStr TicketNormalizer.
Local Open Scope N_scope.

(** A range of code points that leaves out a given code point. *)
Definition avoids (r : char * char) (k : char) : bool :=
  (k <? fst r) || (snd r <? k).

Lemma decimal_not_in (ks : list char) :
  forallb (fun r => forallb (avoids r) ks) decimal_ranges = true ->
  forall c, is_decimal c = true -> ~ In c ks.
Proof.
  intros Hall c Hc Hin. unfold is_decimal in Hc.
  apply existsb_exists in Hc as (r & Hr & Hcr).
  rewrite forallb_forall in Hall. specialize (Hall r Hr).
  rewrite forallb_forall in Hall. specialize (Hall c Hin).
  unfold avoids in Hall. unfold in_range in Hcr.
  apply andb_true_iff in Hcr as [H1 H2].
  apply N.leb_le in H1, H2.
  apply orb_true_iff in Hall as [H|H]; apply N.ltb_lt in H; lia.
Qed.

Lemma decimal_not_space (c : char) :
  is_decimal c = true -> is_space c = false.
Proof.
  intros Hc. destruct (is_space c) eqn:E; [|reflexivity].
  exfalso. apply is_space_in in E. revert E.
  now apply decimal_not_in.
Qed.

Definition lowercase_az : list char :=
  map N.of_nat (seq 97 26).

Lemma lowercase_az_in (c : char) :
  (97 <=? c) && (c <=? 122) = true -> In c lowercase_az.
Proof.
  intros H. apply andb_true_iff in H as [H1 H2].
  apply N.leb_le in H1, H2.
  unfold lowercase_az. apply in_map_iff.
  exists (N.to_nat c). split; [apply N2Nat.id|].
  apply in_seq. lia.
Qed.

Lemma decimal_upper (c : char) :
  is_decimal c = true -> upper_char c = [c].
Proof.
  intros Hc. unfold upper_char.
  destruct ((97 <=? c) && (c <=? 122)) eqn:Eaz.
  - exfalso. apply lowercase_az_in in Eaz. revert Eaz.
    now apply decimal_not_in.
  - destruct (assoc c upper_special) eqn:Ea; [|reflexivity].
    exfalso. apply assoc_some_in in Ea. revert Ea.
    now apply decimal_not_in.
Qed.

Lemma decimal_not_sign (c : char) :
  is_decimal c = true -> (c =? 43) || (c =? 45) = false.
Proof.
  intros Hc. destruct ((c =? 43) || (c =? 45)) eqn:E; [|reflexivity].
  exfalso. apply (decimal_not_in [43; 45] eq_refl c Hc).
  apply orb_true_iff in E as [E|E]; apply N.eqb_eq in E; subst; simpl; auto.
Qed.

Lemma upper_AZ_bounds (c : char) :
  is_upper_AZ c = true -> 65 <= c <= 90.
Proof.
  unfold is_upper_AZ. intros H. apply andb_true_iff in H as [H1 H2].
  apply N.leb_le in H1, H2. lia.
Qed.

Lemma upper_AZ_not_space (c : char) :
  is_upper_AZ c = true -> is_space c = false.
Proof.
  intros Hc. apply upper_AZ_bounds in Hc.
  destruct (is_space c) eqn:E; [|reflexivity].
  apply is_space_in in E. simpl in E.
  repeat (destruct E as [E|E]; [lia|]). destruct E.
Qed.

Lemma upper_AZ_upper (c : char) :
  is_upper_AZ c = true -> upper_char c = [c].
Proof.
  intros Hc. apply upper_AZ_bounds in Hc. unfold upper_char.
  destruct ((97 <=? c) && (c <=? 122)) eqn:Eaz.
  - apply andb_true_iff in Eaz as [H1 _]. apply N.leb_le in H1. lia.
  - destruct (assoc c upper_special) eqn:Ea; [|reflexivity].
    apply assoc_some_in in Ea. simpl in Ea.
    repeat (destruct Ea as [Ea|Ea]; [lia|]). destruct Ea.
Qed.

Lemma upper_AZ_not_decimal (c : char) :
  is_upper_AZ c = true -> is_decimal c = false.
Proof.
  intros Hc. destruct (is_decimal c) eqn:E; [|reflexivity].
  exfalso. apply upper_AZ_bounds in Hc.
  refine (decimal_not_in (map N.of_nat (seq 65 26)) eq_refl c E _).
  apply in_map_iff. exists (N.to_nat c). split; [apply N2Nat.id|].
  apply in_seq. lia.
Qed.

(** [span] splits its argument, the first part lies in the class and the
    second part does not start in it. *)
Lemma span_spec (p : char -> bool) (s a b : str) :
  span p s = (a, b) ->
  s = a ++ b /\ forallb p a = true /\
  match b with [] => True | c :: _ => p c = false end.
Proof.
  revert a b; induction s as [|c s IH]; simpl; intros a b H.
  - now inversion H.
  - destruct (p c) eqn:Ec.
    + destruct (span p s) as [a' b'] eqn:Es. inversion H; subst.
      destruct (IH _ _ eq_refl) as (-> & Ha & Hb).
      simpl. now rewrite Ec, Ha.
    + inversion H; subst. simpl. now rewrite Ec.
Qed.

Lemma span_app (p : char -> bool) (a b : str) :
  forallb p a = true ->
  match b with [] => True | c :: _ => p c = false end ->
  span p (a ++ b) = (a, b).
Proof.
  intros Ha Hb. induction a as [|c a IH]; simpl in *.
  - destruct b as [|c b]; [reflexivity|]. simpl. now rewrite Hb.
  - apply andb_true_iff in Ha as [Hc Ha]. now rewrite Hc, IH.
Qed.

(** What a match of the pattern says about the text. *)
Lemma re_match_sound (s project number : str) :
  re_match s = Some (project, number) ->
  project <> [] /\ forallb is_upper_AZ project = true /\
  number <> [] /\ forallb is_decimal number = true /\
  (s = project ++ lit "-" ++ number \/
   s = project ++ lit "-" ++ number ++ [nl]).
Proof.
  unfold re_match. destruct (span is_upper_AZ s) as [p r1] eqn:E1.
  apply span_spec in E1 as (-> & Hp & _).
  destruct p as [|p0 p]; [discriminate|].
  destruct r1 as [|c r2]; [discriminate|].
  destruct (N.eqb_spec c 45) as [->|Hne].
  2:{ destruct c as [|q]; [discriminate|].
      repeat (destruct q as [q|q|]; try discriminate); congruence. }
  destruct (span is_decimal r2) as [d r3] eqn:E2.
  apply span_spec in E2 as (-> & Hd & _).
  destruct d as [|d0 d]; [discriminate|].
  destruct r3 as [|z r3].
  - intros H; inversion H; subst. rewrite app_nil_r.
    repeat split; try discriminate; auto.
  - destruct (N.eqb_spec z 10) as [->|Hz].
    2:{ destruct z as [|q]; [discriminate|].
        repeat (destruct q as [q|q|]; try discriminate); congruence. }
    destruct r3; [|discriminate].
    intros H; inversion H; subst.
    repeat split; try discriminate; auto.
Qed.

(** The pattern matches a project code, a dash and a number, with these as
    its groups. *)
Lemma re_match_complete (project number : str) :
  project <> [] -> forallb is_upper_AZ project = true ->
  number <> [] -> forallb is_decimal number = true ->
  re_match (project ++ lit "-" ++ number) = Some (project, number).
Proof.
  intros Hp Hpa Hn Hna. unfold re_match.
  rewrite (span_app is_upper_AZ project (lit "-" ++ number) Hpa eq_refl).
  destruct project as [|p0 p]; [congruence|].
  change (lit "-" ++ number) with (45 :: number).
  cbv iota beta.
  replace number with (number ++ []) at 1 by apply app_nil_r.
  rewrite (span_app is_decimal number [] Hna I).
  destruct number; [congruence|reflexivity].
Qed.

Lemma zfill_digits (number : str) :
  number <> [] -> forallb is_decimal number = true ->
  zfill 3 number = repeat 48 (3 - length number) ++ number.
Proof.
  intros Hn Hd. unfold zfill.
  destruct (Nat.leb_spec 3 (length number)) as [H|H].
  - replace (3 - length number)%nat with 0%nat by lia. reflexivity.
  - destruct number as [|c s]; [congruence|].
    simpl in Hd. apply andb_true_iff in Hd as [Hc _].
    now rewrite (decimal_not_sign _ Hc).
Qed.

End NormalizerFacts.

Section NormalizerClaims.
Import PyStr TicketNormalizer.
Local Open Scope N_scope.

Lemma zfill_wide (s : str) : (3 <= length s)%nat -> zfill 3 s = s.
Proof.
  intros H. unfold zfill.
  destruct (Nat.leb_spec 3 (length s)); [reflexivity | lia].
Qed.

(** The formatted key of a normalized pair is left alone by [strip] and
    [upper]. *)
Lemma format_key_canonical (project number : str) :
  project <> [] -> forallb is_upper_AZ project = true ->
  number <> [] -> forallb is_decimal number = true ->
  upper (strip (format_key project number)) = format_key project number.
Proof.
  intros Hp Hpa Hn Hna. unfold format_key.
  destruct project as [|p0 p]; [congruence|].
  destruct (exists_last Hn) as (d & z & ->).
  rewrite forallb_app in Hna. apply andb_true_iff in Hna as [Hd Hz].
  simpl in Hz. rewrite andb_true_r in Hz.
  simpl in Hpa. apply andb_true_iff in Hpa as [Hp0 Hpa].
  replace ((p0 :: p) ++ lit "-" ++ d ++ [z])
    with (p0 :: (p ++ lit "-" ++ d) ++ [z])
    by (simpl; now rewrite <- !app_assoc).
  rewrite strip_fixed
    by (auto using upper_AZ_not_space, decimal_not_space).
  apply upper_fixed.
  constructor; [now apply upper_AZ_upper|].
  rewrite !Forall_app. repeat split.
  - rewrite forallb_forall in Hpa. apply Forall_forall.
    intros c Hc. now apply upper_AZ_upper, Hpa.
  - repeat constructor.
  - rewrite forallb_forall in Hd. apply Forall_forall.
    intros c Hc. now apply decimal_upper, Hd.
  - repeat constructor. now apply decimal_upper.
Qed.

Example normalize_examples :
  normalize (lit "mdt-66") = Some (lit "MDT", lit "066")
  /\ normalize (lit "AAA-1") = Some (lit "AAA", lit "001")
  /\ normalize (lit "MDT-12345") = Some (lit "MDT", lit "12345")
  /\ normalize (lit "bad input") = None.
Proof. repeat split; reflexivity. Qed.

(** C9.  For every raw reference that, trimmed and upper-cased, is a project
    code of letters A-Z, a dash and a number of decimal digits, [normalize]
    returns the project code and the digits with zeros put in front up to
    width 3; formatting that pair as PROJECT-NNN and normalizing it again
    returns the same pair.  Digits that are already three or more wide are
    returned as they are, and nothing is ever cut off. *)
Theorem normalize_idempotent (raw project digits : str) :
  project <> [] -> forallb is_upper_AZ project = true ->
  digits <> [] -> forallb is_decimal digits = true ->
  upper (strip raw) = project ++ lit "-" ++ digits ->
  normalize raw
  = Some (project, repeat 48 (3 - length digits) ++ digits)
  /\ normalize
       (format_key project (repeat 48 (3 - length digits) ++ digits))
     = Some (project, repeat 48 (3 - length digits) ++ digits)
  /\ ((3 <= length digits)%nat ->
      normalize raw = Some (project, digits)
      /\ normalize (format_key project digits) = Some (project, digits))
  /\ length (repeat 48 (3 - length digits) ++ digits)
     = Nat.max 3 (length digits).
Proof.
  intros Hp Hpa Hd Hda Hraw.
  assert (Hz : zfill 3 digits = repeat 48 (3 - length digits) ++ digits)
    by now apply zfill_digits.
  assert (Hlen : length (zfill 3 digits) = Nat.max 3 (length digits)).
  { rewrite Hz, length_app, repeat_length. lia. }
  assert (Hn : zfill 3 digits <> []).
  { intros E0. rewrite E0 in Hlen. cbn [length] in Hlen. lia. }
  assert (Hna : forallb is_decimal (zfill 3 digits) = true).
  { rewrite Hz, forallb_app, Hda, andb_true_r.
    apply forallb_forall. intros c Hc.
    apply repeat_spec in Hc. now subst. }
  assert (E1 : normalize raw = Some (project, zfill 3 digits)).
  { unfold normalize. rewrite Hraw.
    now rewrite re_match_complete by assumption. }
  assert (E2 : normalize (format_key project (zfill 3 digits))
               = Some (project, zfill 3 digits)).
  { unfold normalize.
    rewrite format_key_canonical by assumption.
    unfold format_key. rewrite re_match_complete by assumption.
    rewrite zfill_wide by lia. reflexivity. }
  rewrite <- Hz. split; [exact E1|]. split; [exact E2|].
  split; [|exact Hlen].
  intros Hw. rewrite zfill_wide in E1, E2 by exact Hw. now split.
Qed.

Lemma normalize_idempotent_witness :
  (normalize (lit " mdt-66 ") = Some (lit "MDT", lit "066")
   /\ normalize (format_key (lit "MDT") (lit "066"))
      = Some (lit "MDT", lit "066"))
  /\ (normalize (lit "mdt-12345") = Some (lit "MDT", lit "12345")
      /\ normalize (format_key (lit "MDT") (lit "12345"))
         = Some (lit "MDT", lit "12345")).
Proof.
  split.
  - pose proof (normalize_idempotent (lit " mdt-66 ") (lit "MDT") (lit "66")
                  ltac:(discriminate) eq_refl ltac:(discriminate) eq_refl
                  eq_refl) as (H1 & H2 & _).
    split; [exact H1 | exact H2].
  - pose proof (normalize_idempotent (lit "mdt-12345") (lit "MDT")
                  (lit "12345")
                  ltac:(discriminate) eq_refl ltac:(discriminate) eq_refl
                  eq_refl) as (H1 & H2 & _).
    split; [exact H1 | exact H2].
Defined.

End NormalizerClaims.

(** ** Validation of a candidate *)

Section ValidationClaims.
Import PyStr LLMProcessor.
Local Open Scope N_scope.

(** [needle] occurs in [s]. *)
Definition Occurs (needle s : str) : Prop :=
  exists a b, s = a ++ needle ++ b.

(** The lines of [s] that are not made of whitespace only. *)
Definition nonblank_lines (s : str) : list str :=
  filter (fun line => negb (forallb is_space line)) (split [nl] s).

Lemma contains_false_iff (needle s : str) :
  contains needle s = false <-> ~ Occurs needle s.
Proof.
  unfold Occurs. rewrite <- contains_iff.
  destruct (contains needle s); split; intros H; easy.
Qed.

Lemma triple_hash_double (s : str) :
  contains (lit "###") s = true -> contains (lit "##") s = true.
Proof.
  rewrite !contains_iff. intros (a & b & ->).
  exists a, (lit "#" ++ b). reflexivity.
Qed.

Lemma nonempty_strip (line : str) :
  nonempty (strip line) = negb (forallb is_space line).
Proof.
  destruct (forallb is_space line) eqn:E.
  - apply strip_nil_iff in E. now rewrite E.
  - destruct (strip line) eqn:Es; [|reflexivity].
    apply strip_nil_iff in Es. congruence.
Qed.

Lemma summary_lines_count (s : str) :
  length (map strip
            (filter (fun line => nonempty (strip line)) (split [nl] s)))
  = length (nonblank_lines s).
Proof.
  rewrite length_map. unfold nonblank_lines. f_equal.
  apply filter_ext. intros line. apply nonempty_strip.
Qed.

(** The words of [split_ws] are the text with its whitespace taken out, cut
    into non-empty pieces. *)
Lemma split_ws_from_concat (cur s : str) :
  concat (split_ws_from cur s)
  = rev cur ++ filter (fun c => negb (is_space c)) s.
Proof.
  revert cur; induction s as [|c s IH]; intros cur; simpl.
  - destruct cur; simpl; now rewrite ?app_nil_r.
  - destruct (is_space c); simpl.
    + destruct cur; simpl; now rewrite IH.
    + rewrite IH. simpl. now rewrite <- app_assoc.
Qed.

Lemma split_ws_concat (s : str) :
  concat (split_ws s) = filter (fun c => negb (is_space c)) s.
Proof. apply split_ws_from_concat. Qed.

Lemma split_ws_from_words (cur s : str) :
  Forall (fun w => w <> []) (split_ws_from cur s).
Proof.
  revert cur; induction s as [|c s IH]; intros cur; simpl.
  - destruct cur as [|x cur]; constructor; [|constructor].
    intros E. apply (f_equal (@length N)) in E.
    rewrite length_rev in E. discriminate.
  - destruct (is_space c); [|apply IH].
    destruct cur as [|x cur]; [apply IH|].
    constructor; [|apply IH].
    intros E. apply (f_equal (@length N)) in E.
    rewrite length_rev in E. discriminate.
Qed.

(** C4.  A candidate is accepted exactly when it is non-empty, has between 5
    and 30 whitespace-separated words, is at most 250 characters long, has no
    [##] in it, has at most two non-blank lines, and has none of the list
    markers (dash, bullet or star followed by a space) in it.  So a candidate of
    31 words is rejected, and one of 30 words that passes the other checks is
    accepted. *)
Theorem is_valid_summary_iff (summary : str) :
  (_is_valid_summary summary = true <->
     summary <> []
     /\ (5 <= length (split_ws summary) <= 30)%nat
     /\ (length summary <= 250)%nat
     /\ ~ Occurs (lit "##") summary
     /\ (length (nonblank_lines summary) <= 2)%nat
     /\ ~ Occurs (lit "- ") summary
     /\ ~ Occurs [bullet; space] summary
     /\ ~ Occurs (lit "* ") summary)
  /\ (length (split_ws summary) = 31%nat -> _is_valid_summary summary = false)
  /\ (length (split_ws summary) = 30%nat ->
      (length summary <= 250)%nat ->
      ~ Occurs (lit "##") summary ->
      (length (nonblank_lines summary) <= 2)%nat ->
      ~ Occurs (lit "- ") summary ->
      ~ Occurs [bullet; space] summary ->
      ~ Occurs (lit "* ") summary ->
      _is_valid_summary summary = true).
Proof.
  assert (Hiff :
    _is_valid_summary summary = true <->
     summary <> []
     /\ (5 <= length (split_ws summary) <= 30)%nat
     /\ (length summary <= 250)%nat
     /\ ~ Occurs (lit "##") summary
     /\ (length (nonblank_lines summary) <= 2)%nat
     /\ ~ Occurs (lit "- ") summary
     /\ ~ Occurs [bullet; space] summary
     /\ ~ Occurs (lit "* ") summary).
  { unfold _is_valid_summary. rewrite summary_lines_count.
    rewrite <- !contains_false_iff.
    destruct summary as [|c0 s0] eqn:Es; simpl nonempty; cbv iota beta.
    { simpl negb. cbv iota. split; [discriminate | intros [H _]; congruence]. }
    rewrite <- Es. simpl negb. cbv iota.
    destruct (Nat.ltb_spec (length (split_ws summary)) 5);
      simpl orb; cbv iota; [split; [discriminate | lia]|].
    destruct (Nat.ltb_spec 30 (length (split_ws summary)));
      cbv iota; [split; [discriminate | lia]|].
    destruct (Nat.ltb_spec 250 (length summary));
      cbv iota; [split; [discriminate | lia]|].
    destruct (contains (lit "##") summary) eqn:E2.
    { rewrite orb_true_r. split; [discriminate | intros H'; decompose [and] H'; congruence]. }
    destruct (contains (lit "###") summary) eqn:E3.
    { apply triple_hash_double in E3. congruence. }
    simpl orb. cbv iota.
    destruct (Nat.ltb_spec 2 (length (nonblank_lines summary)));
      cbv iota; [split; [discriminate | lia]|].
    destruct (contains (lit "- ") summary);
      [split; [discriminate | intros H'; decompose [and] H'; congruence]|].
    destruct (contains [bullet; space] summary);
      [split; [discriminate | intros H'; decompose [and] H'; congruence]|].
    destruct (contains (lit "* ") summary);
      [split; [discriminate | intros H'; decompose [and] H'; congruence]|].
    simpl. split; [intros _|reflexivity].
    repeat split; try lia; try congruence. }
  split; [exact Hiff|]. split.
  - intros H31. apply not_true_is_false. intros E.
    apply Hiff in E. lia.
  - intros H30 Hlen H2 Hl Hd Hb Hs. apply Hiff.
    repeat split; try assumption; try lia.
    intros ->. discriminate.
Qed.

Definition thirty_words : str :=
  concat (repeat (lit "word ") 29) ++ lit "word".

Lemma is_valid_summary_iff_witness :
  length (split_ws thirty_words) = 30%nat
  /\ _is_valid_summary thirty_words = true
  /\ _is_valid_summary (thirty_words ++ lit " more") = false.
Proof.
  split; [reflexivity|]. split.
  - apply (proj2 (proj2 (is_valid_summary_iff thirty_words)));
      try (apply contains_false_iff; reflexivity);
      try reflexivity; vm_compute; lia.
  - apply (proj1 (proj2 (is_valid_summary_iff (thirty_words ++ lit " more")))).
    reflexivity.
Defined.

End ValidationClaims.

(** ** The extractive fallback never returns the empty string *)

Section FallbackFacts.
Import PyStr LLMProcessor.
Local Open Scope N_scope.

Lemma meaningful_loop_long (skip_section : bool) (acc lines : list str) :
  Forall (fun l => (30 < length l)%nat) acc ->
  Forall (fun l => (30 < length l)%nat)
    (meaningful_loop skip_section acc lines).
Proof.
  revert skip_section acc.
  induction lines as [|line rest IH]; intros skip acc Hacc;
    cbn [meaningful_loop]; [assumption|].
  destruct (negb (nonempty (strip line))); [now apply IH|].
  destruct (_should_skip_line (strip line)); [now apply IH|].
  destruct (negb skip && _is_meaningful_line (strip line)).
  - destruct (Nat.ltb_spec 30 (length (_clean_line (strip line)))) as [Hl|Hl];
      cbv beta iota.
    + assert (Forall (fun l => (30 < length l)%nat)
                (acc ++ [_clean_line (strip line)])).
      { apply Forall_app. split; [assumption|]. now repeat constructor. }
      destruct (3 <=? length (acc ++ [_clean_line (strip line)]))%nat;
        [assumption | now apply IH].
    + destruct (3 <=? length acc)%nat; [assumption | now apply IH].
  - cbv beta iota.
    destruct (3 <=? length acc)%nat; [assumption | now apply IH].
Qed.

Lemma in_firstn (A : Type) (n : nat) (l : list A) (x : A) :
  In x (firstn n l) -> In x l.
Proof.
  revert l; induction n as [|n IH]; intros [|y l]; simpl; try tauto.
  intros [H|H]; [now left | right; now apply IH].
Qed.

Lemma simple_sentences_long (content : str) :
  Forall (fun s => (20 < length s)%nat) (_extract_simple_sentences content).
Proof.
  unfold _extract_simple_sentences.
  set (sentences := map strip (filter _ _)).
  assert (Hs : Forall (fun s => (20 < length s)%nat) sentences).
  { subst sentences. apply Forall_forall. intros s Hs.
    apply in_map_iff in Hs as (x & <- & Hx).
    apply filter_In in Hx as [_ Hx].
    apply andb_true_iff in Hx as [_ Hx]. now apply Nat.ltb_lt in Hx. }
  rewrite Forall_forall in Hs.
  destruct (find _ (firstn 3 sentences)) as [s|] eqn:Ef.
  - apply find_some in Ef as [Hin _]. apply in_firstn in Hin.
    repeat constructor. now apply Hs.
  - apply Forall_forall. intros s Hin. apply in_firstn in Hin. now apply Hs.
Qed.

Lemma app_ellipsis_nonempty (s : str) : s ++ ellipsis <> [].
Proof. destruct s; discriminate. Qed.

Lemma format_summary_nonempty (first : str) (others : list str) :
  first <> [] -> _format_summary_from_sentences (first :: others) <> [].
Proof.
  intros Hf. unfold _format_summary_from_sentences.
  destruct (150 <? _)%nat; [apply app_ellipsis_nonempty|].
  destruct (120 <? _)%nat; [apply app_ellipsis_nonempty|].
  destruct first as [|c first]; [congruence|].
  destruct others; simpl; discriminate.
Qed.

Lemma fallback_summary_nonempty (content : str) :
  _fallback_summary content <> [].
Proof.
  unfold _fallback_summary.
  destruct (_extract_meaningful_sentences content) as [|m ms] eqn:Em.
  - pose proof (simple_sentences_long content) as Hs.
    destruct (_extract_simple_sentences content) as [|s ss]; [discriminate|].
    apply format_summary_nonempty. inversion Hs; subst.
    destruct s; [simpl in *; lia | discriminate].
  - pose proof (meaningful_loop_long false [] (split [nl] content)
                  (Forall_nil _)) as Hm.
    unfold _extract_meaningful_sentences in Em. rewrite Em in Hm.
    apply format_summary_nonempty. inversion Hm; subst.
    destruct m; [simpl in *; lia | discriminate].
Qed.

End FallbackFacts.

(** ** The generation ladder *)

Section LadderClaims.
Import PyStr LLMProcessor.
Local Open Scope N_scope.

Variable backend : list request -> request -> outcome str.

(** The request of an attempt, read off [_attempt_summary]. *)
Definition request_of (content : str) (attempt : nat) : request :=
  let '(user_content, temp, max_tokens) :=
    _get_attempt_params content attempt in
  mkRequest _get_system_prompt user_content temp max_tokens.

Lemma attempt_summary_log (content : str) (attempt : nat)
  (log : list request) :
  snd (_attempt_summary backend content _get_system_prompt attempt log)
  = log ++ [request_of content attempt].
Proof.
  unfold _attempt_summary, request_of.
  destruct (_get_attempt_params content attempt) as [[u t] m].
  now destruct (backend log _).
Qed.

Lemma attempts_loop_total (content : str) (attempts : list nat)
  (log : list request) :
  exists summary log',
    attempts_loop backend content _get_system_prompt attempts log
    = (Ret summary, log')
    /\ summary <> []
    /\ exists k, (k <= length attempts)%nat
         /\ log' = log ++ map (request_of content) (firstn k attempts)
         /\ (attempts <> [] -> (1 <= k)%nat).
Proof.
  revert log. induction attempts as [|a rest IH]; intros log.
  - exists (_fallback_summary content), log. cbn.
    repeat split; [apply fallback_summary_nonempty|].
    exists 0%nat. rewrite app_nil_r. repeat split; [lia | congruence].
  - cbn [attempts_loop]. unfold bind, try_except, ret.
    pose proof (attempt_summary_log content a log) as Hlog.
    destruct (_attempt_summary backend content _get_system_prompt a log)
      as [[result|] log1] eqn:Ea; simpl in Hlog; subst log1.
    + destruct (nonempty result && _is_valid_summary result) eqn:Ev.
      * exists result, (log ++ [request_of content a]).
        repeat split.
        -- apply andb_true_iff in Ev as [Hn _]. now destruct result.
        -- exists 1%nat. cbn. rewrite ?firstn_0. repeat split; lia.
      * destruct (IH (log ++ [request_of content a]))
          as (s & log' & -> & Hs & k & Hk & -> & _).
        exists s, ((log ++ [request_of content a])
                   ++ map (request_of content) (firstn k rest)).
        repeat split; [assumption|].
        exists (S k). cbn. rewrite <- app_assoc. repeat split; lia.
    + destruct (a =? 3)%nat.
      * exists (_fallback_summary content), (log ++ [request_of content a]).
        repeat split; [apply fallback_summary_nonempty|].
        exists 1%nat. cbn. rewrite ?firstn_0. repeat split; lia.
      * destruct (IH (log ++ [request_of content a]))
          as (s & log' & -> & Hs & k & Hk & -> & _).
        exists s, ((log ++ [request_of content a])
                   ++ map (request_of content) (firstn k rest)).
        repeat split; [assumption|].
        exists (S k). cbn. rewrite <- app_assoc. repeat split; lia.
Qed.

(** What the one-attempt path does: one request, and the candidate is
    returned whenever it is not empty. *)
Lemma single_summary_attempt_spec (content : str) (log : list request) :
  exists summary,
    _single_summary_attempt backend content log
    = (Ret summary, log ++ [request_of content 1])
    /\ summary <> []
    /\ match backend log (request_of content 1) with
       | Ret output =>
           summary = if nonempty (strip output) then strip output
                     else _fallback_summary content
       | Exc => summary = _fallback_summary content
       end.
Proof.
  unfold _single_summary_attempt, try_except, bind, ret, _attempt_summary,
    request_of.
  cbn [_get_attempt_params].
  destruct (backend log _) as [output|].
  - destruct (nonempty (strip output)) eqn:En.
    + exists (strip output). repeat split. now destruct (strip output).
    + exists (_fallback_summary content).
      repeat split. apply fallback_summary_nonempty.
  - exists (_fallback_summary content).
    repeat split. apply fallback_summary_nonempty.
Qed.

End LadderClaims.

Section SummaryClaims.
Import PyStr LLMProcessor.
Local Open Scope N_scope.

Lemma dispatch_total (backend : list request -> request -> outcome str)
  (content : str) (log : list request) :
  exists summary log',
    (if (500 <? length content)%nat
     then _generate_summary_with_attempts backend content
     else _single_summary_attempt backend content) log
    = (Ret summary, log')
    /\ summary <> [].
Proof.
  destruct (500 <? length content)%nat.
  - destruct (attempts_loop_total backend content [1; 2; 3]%nat log)
      as (s & log' & E & Hs & _).
    now exists s, log'.
  - destruct (single_summary_attempt_spec backend content log)
      as (s & E & Hs & _).
    now exists s, (log ++ [request_of content 1]).
Qed.

Lemma raising_backend_fallback (content : str) (log : list request) :
  exists log',
    (if (500 <? length content)%nat
     then _generate_summary_with_attempts (fun _ _ => Exc) content
     else _single_summary_attempt (fun _ _ => Exc) content) log
    = (Ret (_fallback_summary content), log').
Proof.
  destruct (500 <? length content)%nat.
  - unfold _generate_summary_with_attempts.
    generalize _get_system_prompt. intros sp.
    cbn [attempts_loop].
    unfold bind, try_except, ret, _attempt_summary.
    destruct (_get_attempt_params content 1) as [[u1 t1] m1].
    destruct (_get_attempt_params content 2) as [[u2 t2] m2].
    destruct (_get_attempt_params content 3) as [[u3 t3] m3].
    cbn [Nat.eqb]. eexists. reflexivity.
  - unfold _single_summary_attempt.
    generalize _get_system_prompt. intros sp.
    unfold bind, try_except, ret, _attempt_summary.
    destruct (_get_attempt_params content 1) as [[u1 t1] m1].
    eexists. reflexivity.
Qed.

(** C1.  [generate_summary] always returns, and what it returns is a
    non-empty string, whatever the backend does on each call: no exception
    leaves it.  With no content at all it returns the no-content sentence, and
    with a backend that raises on every call it returns the fallback summary
    of the content. *)
Theorem generate_summary_total
  (backend : list request -> request -> outcome str)
  (description rationale : str) (log : list request) :
  (exists summary log',
     generate_summary backend description rationale log = (Ret summary, log')
     /\ summary <> [])
  /\ generate_summary backend [] [] log = (Ret no_content, log)
  /\ (forall c content, exists log',
        generate_summary (fun _ _ => Exc) (c :: content) [] log
        = (Ret (_fallback_summary (c :: content)), log')).
Proof.
  split; [|split].
  - unfold generate_summary. cbv zeta beta.
    destruct (nonempty description); [destruct (nonempty rationale)|];
      cbn [andb]; try apply dispatch_total.
    destruct (nonempty rationale); [apply dispatch_total|].
    exists no_content, log. split; [reflexivity | discriminate].
  - reflexivity.
  - intros c content. unfold generate_summary. cbv zeta beta.
    cbn [nonempty andb]. apply raising_backend_fallback.
Qed.

(** C8.  The user text, temperature and token limit of an attempt are given
    by the attempt number and the content alone: the whole content with 0.3
    and 150, then its first 800 characters followed by the 10-20-words
    instruction with 0.2 and 100, then a fixed prompt, the same for every
    content, with 0.0 and 40.  Whatever the backend answers, the request of an
    attempt is the one computed from these, and the ladder sends the requests
    of attempts 1, 2, 3 in this order, stopping after one, two or three. *)
Theorem attempt_params_by_index (content : str) :
  _get_attempt_params content 1 = (content, 0.3%Q, 150%Z)
  /\ _get_attempt_params content 2
     = (firstn 800 content ++ attempt2_suffix, 0.2%Q, 100%Z)
  /\ (forall other : str,
        _get_attempt_params other 3 = (attempt3_prompt, 0.0%Q, 40%Z))
  /\ contains (lit "in 10-20 words") attempt2_suffix = true
  /\ (forall backend attempt log,
        snd (_attempt_summary backend content _get_system_prompt attempt log)
        = log ++ [request_of content attempt])
  /\ (forall backend log, exists k,
        (1 <= k <= 3)%nat
        /\ snd (_generate_summary_with_attempts backend content log)
           = log ++ map (request_of content) (firstn k [1; 2; 3]%nat)).
Proof.
  repeat split; try reflexivity.
  - intros backend attempt log. apply attempt_summary_log.
  - intros backend log. unfold _generate_summary_with_attempts.
    destruct (attempts_loop_total backend content [1; 2; 3]%nat log)
      as (s & log' & E & _ & k & Hk & -> & Hk1).
    exists k. rewrite E. simpl in Hk. split; [|reflexivity].
    split; [apply Hk1; discriminate | exact Hk].
Qed.

(** C3, at an input where it fails.  For a content of ten characters the
    backend is called once and answers with a heading; the answer does not
    pass validation and is not the fallback summary, and it is returned. *)
Theorem short_content_skips_validation :
  let backend := fun (_ : list request) (_ : request) =>
                   Ret (lit "## Summary") in
  let content := lit "short text" in
  (length content <= 500)%nat
  /\ generate_summary backend content [] []
     = (Ret (lit "## Summary"), [request_of content 1])
  /\ _is_valid_summary (lit "## Summary") = false
  /\ _fallback_summary content = unable_to_summarize
  /\ lit "## Summary" <> unable_to_summarize.
Proof.
  cbv zeta. repeat split; try (vm_compute; reflexivity).
  - vm_compute. lia.
  - discriminate.
Qed.

End SummaryClaims.

(** ** The extractive fallback on bullet lists and on long lines *)

Section FallbackClaims.
Import PyStr LLMProcessor.
Local Open Scope N_scope.

(** A line that starts with a dash, a star or a bullet. *)
Definition is_bullet_line (line : str) : bool :=
  startswith (lit "-") line || startswith (lit "*") line
  || startswith [bullet] line.

(** Every line of the text is blank or, once trimmed, a bullet line. *)
Definition bullets_only (content : str) : bool :=
  forallb (fun line => negb (nonempty (strip line))
                       || is_bullet_line (strip line))
    (split [nl] content).

Lemma bullet_line_skipped (line : str) :
  is_bullet_line line = true -> _should_skip_line line = true.
Proof.
  unfold is_bullet_line, _should_skip_line. intros ->.
  destruct (startswith (lit "#") line || _); [reflexivity|].
  now destruct (any_in _ (lower line)).
Qed.

Lemma meaningful_loop_bullets (skip_section : bool) (acc lines : list str) :
  forallb (fun line => negb (nonempty (strip line))
                       || is_bullet_line (strip line)) lines = true ->
  meaningful_loop skip_section acc lines = acc.
Proof.
  revert skip_section. induction lines as [|line rest IH]; intros skip H;
    cbn [meaningful_loop]; [reflexivity|].
  cbn [forallb] in H. apply andb_true_iff in H as [Hl Hr].
  destruct (negb (nonempty (strip line))); [now apply IH|].
  simpl in Hl. rewrite (bullet_line_skipped _ Hl). now apply IH.
Qed.

Lemma simple_sentences_none (content : str) :
  forallb (fun piece => (length (strip piece) <=? 20)%nat)
    (split (lit ". ") content) = true ->
  _extract_simple_sentences content = [].
Proof.
  intros H. unfold _extract_simple_sentences.
  replace (filter _ (split (lit ". ") content)) with (@nil (list N)).
  - reflexivity.
  - symmetry. induction (split (lit ". ") content) as [|p ps IH];
      [reflexivity|].
    cbn [forallb] in H. apply andb_true_iff in H as [Hp Hps].
    cbn [filter]. apply Nat.leb_le in Hp.
    destruct (Nat.ltb_spec 20 (length (strip p))); [lia|].
    rewrite andb_false_r. now apply IH.
Qed.

(** C6 as stated fails: a single bullet line of forty characters is
    returned as the summary. *)
Lemma bullets_only_counterexample :
  ~ (forall content : str,
       bullets_only content = true ->
       _fallback_summary content = unable_to_summarize).
Proof.
  intros H.
  specialize (H (lit "- Add a dashboard view for every project") eq_refl).
  vm_compute in H. discriminate.
Qed.

(** C6, amended.  When every non-blank line of the text is a bullet line, no
    line qualifies, and the fallback goes on to the sentence extractor: it
    returns the sentinel when that finds nothing, which is the case when no
    piece of the text between full stops followed by a space is longer than 20
    characters once trimmed. *)
Theorem bullets_only_fallback (content : str) :
  bullets_only content = true ->
  _extract_meaningful_sentences content = []
  /\ _fallback_summary content
     = match _extract_simple_sentences content with
       | [] => unable_to_summarize
       | sentence :: more =>
           _format_summary_from_sentences (sentence :: more)
       end
  /\ (forallb (fun piece => (length (strip piece) <=? 20)%nat)
        (split (lit ". ") content) = true ->
      _fallback_summary content = unable_to_summarize).
Proof.
  intros H.
  assert (Hm : _extract_meaningful_sentences content = [])
    by now apply meaningful_loop_bullets.
  split; [exact Hm|].
  assert (Hf : _fallback_summary content
               = match _extract_simple_sentences content with
                 | [] => unable_to_summarize
                 | sentence :: more =>
                     _format_summary_from_sentences (sentence :: more)
                 end).
  { unfold _fallback_summary. rewrite Hm.
    now destruct (_extract_simple_sentences content). }
  split; [exact Hf|].
  intros Hs. rewrite Hf. now rewrite simple_sentences_none.
Qed.

Definition three_bullets : str :=
  join [nl] [lit "- one"; lit "* two"; [bullet] ++ lit " three"].

Lemma bullets_only_fallback_witness :
  _fallback_summary three_bullets = unable_to_summarize.
Proof.
  apply (proj2 (proj2 (bullets_only_fallback three_bullets eq_refl))).
  reflexivity.
Defined.

(** *** Truncation *)

Lemma after_first_spec (c : N) (s : str) :
  match after_first c s with
  | None => ~ In c s
  | Some r => exists pre, s = pre ++ c :: r /\ ~ In c pre
  end.
Proof.
  induction s as [|x s IH]; simpl; [tauto|].
  destruct (N.eqb_spec x c) as [->|Hne].
  - exists []. split; [reflexivity | tauto].
  - destruct (after_first c s) as [r|].
    + destruct IH as (pre & -> & Hpre).
      exists (x :: pre). split; [reflexivity|].
      simpl. intros [E|E]; [congruence | tauto].
    + intros [E|E]; [congruence | tauto].
Qed.

(** [rsplit1_head] keeps what is before the last occurrence of the
    separator, and everything when there is none. *)
Lemma rsplit1_head_spec (c : N) (s : str) :
  (~ In c s /\ rsplit1_head c s = s)
  \/ (exists tail, s = rsplit1_head c s ++ [c] ++ tail /\ ~ In c tail).
Proof.
  unfold rsplit1_head. pose proof (after_first_spec c (rev s)) as H.
  destruct (after_first c (rev s)) as [r|].
  - right. destruct H as (pre & E & Hpre). exists (rev pre).
    split; [|now rewrite <- in_rev].
    apply (f_equal (@rev N)) in E. rewrite rev_involutive in E.
    rewrite E, rev_app_distr. simpl. now rewrite <- app_assoc.
  - left. split; [|reflexivity]. now rewrite in_rev.
Qed.

Lemma rsplit1_head_length (c : N) (s : str) :
  (length (rsplit1_head c s) <= length s)%nat.
Proof.
  destruct (rsplit1_head_spec c s) as [[_ ->]|(tail & E & _)]; [lia|].
  apply (f_equal (@length N)) in E. rewrite !length_app in E. lia.
Qed.

(** C5 as stated fails: a line of 199 characters gives a summary of 152
    characters. *)
Lemma summary_length_counterexample :
  ~ (forall content : str,
       _extract_meaningful_sentences content <> [] ->
       (length (_fallback_summary content) <= 150)%nat).
Proof.
  intros H.
  specialize (H (concat (repeat (lit "abcdefghi ") 20))).
  assert (E : length (_fallback_summary (concat (repeat (lit "abcdefghi ") 20)))
              = 152%nat) by (vm_compute; reflexivity).
  rewrite E in H.
  assert (152 <= 150)%nat; [|lia].
  apply H. vm_compute. discriminate.
Qed.

(** C5, amended.  The summary is made from the first one or two sentences
    joined with a space.  A joined text of at most 120 characters is returned
    as it is.  A longer one is cut to its first 150 characters when it has more
    than 150 and to its first 120 otherwise; what is kept of this prefix is
    the part before its last space, or all of it when it has no space; an
    ellipsis is appended.  The summary is then at most 3 characters longer
    than the cap. *)
Theorem format_summary_truncation (first : str) (others : list str) :
  let text := join [space] (firstn 2 (first :: others)) in
  let summary := _format_summary_from_sentences (first :: others) in
  ((length text <= 120)%nat -> summary = text)
  /\ ((120 < length text)%nat ->
      let cap := if (150 <? length text)%nat then 150%nat else 120%nat in
      exists kept,
        summary = kept ++ ellipsis
        /\ ((~ In space (firstn cap text) /\ kept = firstn cap text)
            \/ (exists tail, firstn cap text = kept ++ [space] ++ tail
                             /\ ~ In space tail))
        /\ (length kept <= cap)%nat
        /\ (length summary <= cap + 3)%nat).
Proof.
  cbv zeta. unfold _format_summary_from_sentences.
  set (text := join [space] (firstn 2 (first :: others))).
  split.
  - intros Hlen.
    destruct (Nat.ltb_spec 150 (length text)); [lia|].
    destruct (Nat.ltb_spec 120 (length text)); [lia|]. reflexivity.
  - intros Hlen.
    assert (Hcut : forall cap,
      (cap <= length text)%nat ->
      exists kept,
        rsplit1_head space (firstn cap text) ++ ellipsis = kept ++ ellipsis
        /\ ((~ In space (firstn cap text) /\ kept = firstn cap text)
            \/ (exists tail, firstn cap text = kept ++ [space] ++ tail
                             /\ ~ In space tail))
        /\ (length kept <= cap)%nat
        /\ (length (rsplit1_head space (firstn cap text) ++ ellipsis)
            <= cap + 3)%nat).
    { intros cap Hcap. exists (rsplit1_head space (firstn cap text)).
      pose proof (rsplit1_head_length space (firstn cap text)) as Hl.
      rewrite length_firstn in Hl.
      repeat split.
      - destruct (rsplit1_head_spec space (firstn cap text))
          as [[Hn E]|(tail & E & Hn)]; [left | right].
        + now split.
        + now exists tail.
      - lia.
      - rewrite length_app. change (length ellipsis) with 3%nat. lia. }
    destruct (Nat.ltb_spec 150 (length text)).
    + apply Hcut. lia.
    + destruct (Nat.ltb_spec 120 (length text)); [|lia].
      apply Hcut. lia.
Qed.

Definition long_sentence : str :=
  concat (repeat (lit "abcdefghi ") 13).

Lemma format_summary_truncation_witness :
  exists kept,
    _format_summary_from_sentences [long_sentence] = kept ++ ellipsis
    /\ (length kept <= 120)%nat.
Proof.
  destruct (proj2 (format_summary_truncation long_sentence []))
    as (kept & E & _ & Hk & _).
  - vm_compute. lia.
  - exists kept. split; [exact E | exact Hk].
Defined.

End FallbackClaims.

(** ** The protocol client *)

Section ClientFacts.
Import PyStr MCPClient.
Local Open Scope N_scope.

Lemma str_eqb_eq (a b : str) : str_eqb a b = true <-> a = b.
Proof.
  revert b; induction a as [|x a IH]; intros [|y b]; simpl;
    try (split; [discriminate | congruence]); [tauto|].
  rewrite andb_true_iff, N.eqb_eq, IH.
  split; [intros [-> ->]; reflexivity | intros E; inversion E; auto].
Qed.

(** The text an item contributes: its [text] entry when it is a dictionary
    that has one, and nothing otherwise. *)
Definition text_field (item : pyval) : str :=
  match item with
  | PDict d =>
      match dict_get (lit "text") d with
      | Some (PStr t) => t
      | _ => []
      end
  | _ => []
  end.




Variable json_loads : str -> json_result.
Variable run_server : pyval -> process_run.
Variable stdout_prints : list warning -> warning -> bool.

(** What a section call contributes to the record: the extracted text when
    the call returns a string from which something is extracted. *)
Definition section_value (project key section_name : str) : option str :=
  match _call_mcp_tool json_loads run_server (lit "get_cr_section")
          (section_params project key section_name) with
  | Ok (PStr text) =>
      if nonempty (_extract_section_content text)
      then Some (_extract_section_content text)
      else None
  | _ => None
  end.

(** The exception a section's turn ends with, when it does: that of the
    call, or the one raised for a value that is true as a condition and is
    not a text. *)
Definition section_failure (project key section_name : str) : option exn :=
  match _call_mcp_tool json_loads run_server (lit "get_cr_section")
          (section_params project key section_name) with
  | Raise e => Some e
  | Ok (PStr _) => None
  | Ok value => if truthy value then Some OtherException else None
  end.

(** The dictionary with the value of a section put in, if it has one. *)
Definition with_section (project key : str) (sections : list (str * str))
  (section_name : str) : list (str * str) :=
  match section_value project key section_name with
  | Some text =>
      dict_set (lower (replace (lit "## ") [] section_name)) text sections
  | None => sections
  end.

Lemma fetch_section_run (project key section_name : str)
  (sections : list (str * str)) :
  fetch_section json_loads run_server project key sections section_name
  = match section_failure project key section_name with
    | Some e => Raise e
    | None => Ok (with_section project key sections section_name)
    end.
Proof.
  unfold fetch_section, section_failure, with_section, section_value.
  destruct (_call_mcp_tool _ _ _ _) as [content|e]; [|reflexivity].
  destruct content as [| b | z | q | s | l | d]; cbn [truthy].
  - reflexivity.
  - now destruct b.
  - now destruct (negb (Z.eqb z 0)).
  - now destruct (negb (Qeq_bool q 0)).
  - destruct s as [|c s]; cbn [nonempty].
    + reflexivity.
    + now destruct (_extract_section_content (c :: s)).
  - now destruct l.
  - now destruct d.
Qed.

Lemma section_failed_no_value (project key section_name : str) (e : exn) :
  section_failure project key section_name = Some e ->
  section_value project key section_name = None.
Proof.
  unfold section_failure, section_value.
  now destruct (_call_mcp_tool _ _ _ _) as [[| | | | s | |]|].
Qed.

Lemma with_section_failed (project key : str) (sections : list (str * str))
  (section_name : str) (e : exn) :
  section_failure project key section_name = Some e ->
  with_section project key sections section_name = sections.
Proof.
  intros H. unfold with_section.
  now rewrite (section_failed_no_value _ _ _ _ H).
Qed.

(** The warnings of the sections that fail, in order. *)
Definition failure_warnings (project key : str) (names : list str)
  : list warning :=
  flat_map (fun section_name =>
              match section_failure project key section_name with
              | Some e => [SectionWarning section_name key e]
              | None => []
              end) names.

(** With a stream that prints every warning, the loop visits every section:
    no exception leaves it. *)
Lemma fetch_sections_printing (project key : str) (names : list str)
  (sections : list (str * str)) (printed : list warning) :
  (forall p w, stdout_prints p w = true) ->
  fetch_sections json_loads run_server stdout_prints project key names
    sections printed
  = (fold_left (with_section project key) names sections,
     printed ++ failure_warnings project key names, None).
Proof.
  intros Hp. revert sections printed.
  induction names as [|section_name rest IH]; intros sections printed.
  - cbn. now rewrite app_nil_r.
  - cbn [fetch_sections fold_left failure_warnings flat_map].
    rewrite fetch_section_run.
    destruct (section_failure project key section_name) as [e|] eqn:Ef.
    + rewrite Hp, IH.
      rewrite (with_section_failed project key sections section_name e Ef).
      cbn [app]. now rewrite <- app_assoc.
    + rewrite IH. reflexivity.
Qed.

Lemma section_names_fields (project key : str) :
  let sections :=
    fold_left (with_section project key) section_names [] in
  dict_get (lit "description") sections
  = section_value project key (lit "## Description")
  /\ dict_get (lit "rationale") sections
     = section_value project key (lit "## Rationale").
Proof.
  cbv zeta. unfold section_names. cbn [fold_left]. unfold with_section.
  change (lower (replace (lit "## ") [] (lit "## Description")))
    with (lit "description").
  change (lower (replace (lit "## ") [] (lit "## Rationale")))
    with (lit "rationale").
  destruct (section_value project key (lit "## Description")),
           (section_value project key (lit "## Rationale"));
    split; reflexivity.
Qed.

(** With a stream that prints every warning, [_get_ticket_sections] returns
    the dictionary in which each section has the value of its own call. *)
Lemma get_ticket_sections_spec (project key : str) :
  (forall p w, stdout_prints p w = true) ->
  exists sections,
    sections_and_warnings json_loads run_server stdout_prints project key
    = (Ok sections, failure_warnings project key section_names)
    /\ dict_get (lit "description") sections
       = section_value project key (lit "## Description")
    /\ dict_get (lit "rationale") sections
       = section_value project key (lit "## Rationale").
Proof.
  intros Hp. unfold sections_and_warnings.
  rewrite fetch_sections_printing by assumption.
  eexists. split; [reflexivity|]. apply section_names_fields.
Qed.

End ClientFacts.

Section ClientClaims.
Import PyStr MCPClient.
Local Open Scope N_scope.

(** A JSON string literal: the text between two double quotes. *)
Definition quoted (s : string) : str := [34] ++ lit s ++ [34].

(** The response line with the two text items A and B, and its parse. *)
Definition ab_line : str :=
  lit "{" ++ quoted "jsonrpc" ++ lit ":" ++ quoted "2.0" ++ lit ","
  ++ quoted "id" ++ lit ":1," ++ quoted "result" ++ lit ":{"
  ++ quoted "content" ++ lit ":[{"
  ++ quoted "type" ++ lit ":" ++ quoted "text" ++ lit ","
  ++ quoted "text" ++ lit ":" ++ quoted "A" ++ lit "},{"
  ++ quoted "type" ++ lit ":" ++ quoted "text" ++ lit ","
  ++ quoted "text" ++ lit ":" ++ quoted "B" ++ lit "}]}}".

Definition text_item (t : string) : pyval :=
  PDict [ (lit "type", PStr (lit "text")); (lit "text", PStr (lit t)) ].

Definition ab_response : pyval :=
  PDict [ (lit "jsonrpc", PStr (lit "2.0")); (lit "id", PInt 1);
          (lit "result",
           PDict [ (lit "content", PList [text_item "A"; text_item "B"]) ]) ].



Definition only_ab (line : str) : json_result :=
  if str_eqb line ab_line then JsonValue ab_response else JsonDecodeError.


(** C10.  When the response parsed from the server's output has a result
    object with a [content] entry that is the empty list or is not a list, the
    call returns the result object itself, so an empty content list never
    gives the empty string.  And whenever a call returns something else than
    the result of the response, that result is an object whose [content] is a
    non-empty list and the value returned is a string. *)
Theorem content_not_a_nonempty_list
  (json_loads : str -> json_result) (run_server : pyval -> process_run)
  (tool_name : str) (params : list (str * pyval))
  (stdout stderr line : str)
  (env d : list (str * pyval)) (content : pyval) :
  run_server (make_request tool_name params) = Exited 0 stdout stderr ->
  find_json_line (rev (split [nl] (strip stdout))) = Some line ->
  json_loads line = JsonValue (PDict env) ->
  dict_get (lit "error") env = None ->
  dict_get (lit "result") env = Some (PDict d) ->
  dict_get (lit "content") d = Some content ->
  (content = PList [] \/ forall l, content <> PList l) ->
  _call_mcp_tool json_loads run_server tool_name params = Ok (PDict d)
  /\ _call_mcp_tool json_loads run_server tool_name params <> Ok (PStr [])
  /\ handle_response (PDict env) = Ok (PDict d)
  /\ (forall (other_loads : str -> json_result)
             (other_server : pyval -> process_run)
             tool_name' params' stdout' stderr' line' env' result value,
        other_server (make_request tool_name' params')
        = Exited 0 stdout' stderr' ->
        find_json_line (rev (split [nl] (strip stdout'))) = Some line' ->
        other_loads line' = JsonValue (PDict env') ->
        dict_get (lit "error") env' = None ->
        dict_get (lit "result") env' = Some result ->
        _call_mcp_tool other_loads other_server tool_name' params'
        = Ok value ->
        value <> result ->
        exists d' item items text_content,
          result = PDict d'
          /\ dict_get (lit "content") d' = Some (PList (item :: items))
          /\ value = PStr text_content).
Proof.
  intros Hrun Hline Hjson He Hr Hc Hcontent.
  assert (Eh : handle_response (PDict env) = Ok (PDict d)).
  { unfold handle_response. rewrite He, Hr. unfold unwrap_result. rewrite Hc.
    destruct Hcontent as [->|Hn]; [reflexivity|].
    destruct content as [| | | | | [|i l] |]; try reflexivity.
    now destruct (Hn (i :: l)). }
  assert (E : _call_mcp_tool json_loads run_server tool_name params
              = Ok (PDict d)).
  { unfold _call_mcp_tool. rewrite Hrun. cbn [Z.eqb negb].
    rewrite Hline, Hjson, Eh. reflexivity. }
  split; [exact E|]. split; [rewrite E; discriminate|].
  split; [exact Eh|].
  intros other_loads other_server tool_name' params' stdout' stderr' line'
    env' result value Hrun' Hline' Hjson' He' Hr' Hcall Hne.
  unfold _call_mcp_tool in Hcall. rewrite Hrun' in Hcall.
  cbn [Z.eqb negb] in Hcall. rewrite Hline', Hjson' in Hcall.
  cbn [handle_response] in Hcall. rewrite He', Hr' in Hcall.
  unfold unwrap_result in Hcall.
  destruct result as [| | | | | |d']; try (inversion Hcall; congruence).
  destruct (dict_get (lit "content") d') as [[| | | | | [|i l] |]|] eqn:Ed;
    try (inversion Hcall; congruence).
  destruct (concat_text [] (i :: l)) as [t|e]; [|discriminate].
  inversion Hcall; subst. now exists d', i, l, t.
Qed.

(** A server whose response has an empty content list. *)
Definition empty_content : list (str * pyval) :=
  [ (lit "content", PList []) ].

Lemma content_not_a_nonempty_list_witness :
  _call_mcp_tool
    (fun _ => JsonValue (PDict [ (lit "result", PDict empty_content) ]))
    (fun _ => Exited 0 (lit "{}") []) (lit "get_cr") []
  = Ok (PDict empty_content).
Proof.
  apply (proj1 (content_not_a_nonempty_list
                  (fun _ => JsonValue
                              (PDict [ (lit "result", PDict empty_content) ]))
                  (fun _ => Exited 0 (lit "{}") []) (lit "get_cr") []
                  (lit "{}") [] (lit "{}")
                  [ (lit "result", PDict empty_content) ] empty_content
                  (PList [])
                  eq_refl eq_refl eq_refl eq_refl eq_refl eq_refl
                  (or_introl eq_refl))).
Defined.

(** *** A section warning that cannot be printed *)

(** The section a request asks for, if it asks for one. *)
Definition request_section (req : pyval) : option str :=
  match req with
  | PDict e =>
      match dict_get (lit "params") e with
      | Some (PDict p) =>
          match dict_get (lit "arguments") p with
          | Some (PDict a) =>
              match dict_get (lit "section") a with
              | Some (PStr s) => Some s
              | _ => None
              end
          | _ => None
          end
      | _ => None
      end
  | _ => None
  end.

Definition envelope (text : str) : pyval :=
  PDict [ (lit "result",
           PDict [ (lit "content",
                    PList [ PDict [ (lit "type", PStr (lit "text"));
                                    (lit "text", PStr text) ] ]) ]) ].

(** A server whose description call is answered with an error object, the
    message of which holds a lone surrogate (the escape [\ud800] in the
    JSON text), and whose attribute and rationale calls succeed. *)
Definition lone_surrogate : N := 55296.

Definition surrogate_server (req : pyval) : process_run :=
  match request_section req with
  | None => Exited 0 (lit "{attrs}") []
  | Some s =>
      if str_eqb s (lit "## Rationale")
      then Exited 0 (lit "{rationale}") []
      else Exited 0 (lit "{error}") []
  end.

Definition surrogate_loads (line : str) : json_result :=
  if str_eqb line (lit "{attrs}")
  then JsonValue (envelope (lit "- Status: Open"))
  else if str_eqb line (lit "{rationale}")
  then JsonValue (envelope (join [nl] [lit "---"; lit "Because."; lit "---"]))
  else if str_eqb line (lit "{error}")
  then JsonValue (PDict [ (lit "jsonrpc", PStr (lit "2.0"));
                          (lit "id", PInt 1);
                          (lit "error", PStr [lone_surrogate]) ])
  else JsonDecodeError.

(** An output stream encoded as UTF-8: [print] raises exactly when the text
    holds a surrogate.  The text of a warning is made of its section name, its
    key and the text of its exception; of the latter only a server message
    or a string payload can hold a surrogate (other payloads are shown
    escaped). *)
Definition encodable (s : str) : bool :=
  forallb (fun c => negb ((55296 <=? c) && (c <=? 57343))) s.

Fixpoint exn_encodable (e : exn) : bool :=
  match e with
  | ServerError error_msg => encodable error_msg
  | ToolError (PStr s) => encodable s
  | Unexpected cause => exn_encodable cause
  | FetchError cause => exn_encodable cause
  | _ => true
  end.

Definition utf8_stdout (printed : list warning) (w : warning) : bool :=
  match w with
  | SectionWarning section_name key e =>
      encodable section_name && encodable key && exn_encodable e
  | SectionsWarning key e => encodable key && exn_encodable e
  end.

(** C7, at an input where it fails.  The description call fails with an error
    whose text the output stream cannot encode; the [print] of its warning
    raises, the loop over the sections is left, and the rationale is missing
    from the record although its call, had it been made, gives a text.  With
    a stream on which the second warning cannot be printed either, [get_ticket]
    raises although the attribute call succeeded. *)
Theorem section_warning_failure_skips_rationale :
  section_value surrogate_loads surrogate_server
    (lit "MDT") (lit "MDT-066") (lit "## Rationale")
  = Some (lit "Because.")
  /\ section_failure surrogate_loads surrogate_server
       (lit "MDT") (lit "MDT-066") (lit "## Description")
     = Some (Unexpected (ToolError (PStr [lone_surrogate])))
  /\ (exists ticket,
        get_ticket surrogate_loads surrogate_server utf8_stdout
          (lit "MDT") (lit "MDT-066") = Ok (Some ticket)
        /\ description ticket = None
        /\ rationale ticket = None)
  /\ snd (sections_and_warnings surrogate_loads surrogate_server utf8_stdout
            (lit "MDT") (lit "MDT-066"))
     = [SectionsWarning (lit "MDT-066") OtherException]
  /\ get_ticket surrogate_loads surrogate_server (fun _ _ => false)
       (lit "MDT") (lit "MDT-066")
     = Raise (FetchError OtherException).
Proof.
  split; [reflexivity|]. split; [reflexivity|]. split.
  - eexists. split; [reflexivity|]. split; reflexivity.
  - split; reflexivity.
Qed.

(** A server whose description call fails with a printable error and whose
    rationale call succeeds after a log line. *)
Definition demo_server (req : pyval) : process_run :=
  match request_section req with
  | None => Exited 0 (lit "{attrs}") []
  | Some s =>
      if str_eqb s (lit "## Rationale")
      then Exited 0 (lit "server started" ++ [nl] ++ lit "{rationale}") []
      else Exited 1 [] (lit "boom")
  end.

Definition demo_loads (line : str) : json_result :=
  if str_eqb line (lit "{attrs}")
  then JsonValue (envelope (lit "- Status: Open"))
  else if str_eqb line (lit "{rationale}")
  then JsonValue (envelope (join [nl] [lit "---"; lit "Because."; lit "---"]))
  else JsonDecodeError.

End ClientClaims.

(* ================================================================== *)
(** * Further properties of the modelled code *)
(* ================================================================== *)

(** ** Trimming and upper-casing *)

Section StripFacts.
Import PyStr.
Local Open Scope N_scope.

Lemma drop_while_split (p : char -> bool) (s : str) :
  exists dropped, s = dropped ++ drop_while p s /\ forallb p dropped = true.
Proof.
  induction s as [|c s IH]; simpl.
  - now exists [].
  - destruct (p c) eqn:Ec.
    + destruct IH as (d & E & Hd). exists (c :: d). simpl.
      rewrite Ec, Hd. split; [now f_equal | reflexivity].
    + now exists [].
Qed.

Lemma drop_while_not_head (p : char -> bool) (s : str) (c : char) (t : str) :
  drop_while p s = c :: t -> p c = false.
Proof.
  induction s as [|x s IH]; simpl; [discriminate|].
  destruct (p x) eqn:Ex; [exact IH|].
  intros E; inversion E; now subst.
Qed.

Lemma drop_while_app_all (p : char -> bool) (a b : str) :
  forallb p a = true -> drop_while p (a ++ b) = drop_while p b.
Proof.
  induction a as [|c a IH]; simpl; [reflexivity|].
  intros H. apply andb_true_iff in H as [Hc Ha]. now rewrite Hc, IH.
Qed.

Lemma drop_while_app_stop (p : char -> bool) (a b : str) :
  drop_while p a <> [] -> drop_while p (a ++ b) = drop_while p a ++ b.
Proof.
  induction a as [|c a IH]; simpl; [congruence|].
  destruct (p c); [exact IH | reflexivity].
Qed.

(** [rstrip] keeps a beginning of the text and removes whitespace only. *)
Lemma rstrip_split (s : str) :
  exists dropped, s = rstrip s ++ dropped /\ forallb is_space dropped = true.
Proof.
  unfold rstrip.
  destruct (drop_while_split is_space (rev s)) as (d & E & Hd).
  exists (rev d). split.
  - rewrite <- rev_app_distr, <- E. now rewrite rev_involutive.
  - rewrite forallb_forall in Hd |- *. intros x Hx. apply Hd.
    now apply in_rev.
Qed.

Lemma rstrip_last (s t : str) (z : char) :
  rstrip s = t ++ [z] -> is_space z = false.
Proof.
  unfold rstrip. intros E. apply (f_equal (@rev N)) in E.
  rewrite rev_involutive, rev_app_distr in E. simpl in E.
  now apply drop_while_not_head in E.
Qed.

Lemma rstrip_snoc_space (s : str) (z : char) :
  is_space z = true -> rstrip (s ++ [z]) = rstrip s.
Proof.
  intros Hz. unfold rstrip. rewrite rev_app_distr. simpl. now rewrite Hz.
Qed.

Lemma rstrip_snoc_keep (s : str) (z : char) :
  is_space z = false -> rstrip (s ++ [z]) = s ++ [z].
Proof.
  intros Hz. unfold rstrip. rewrite rev_app_distr. simpl. rewrite Hz.
  change (z :: rev s) with (rev [z] ++ rev s).
  now rewrite <- rev_app_distr, rev_involutive.
Qed.

Lemma rstrip_app_spaces (s w : str) :
  forallb is_space w = true -> rstrip (s ++ w) = rstrip s.
Proof.
  intros Hw. unfold rstrip. rewrite rev_app_distr.
  rewrite drop_while_app_all; [reflexivity|].
  rewrite forallb_forall in Hw |- *. intros x Hx. apply Hw.
  now apply in_rev.
Qed.

(** A trimmed text is empty, or starts and ends with something that is not
    whitespace. *)
Lemma strip_ends (s : str) :
  strip s = []
  \/ exists c m z, is_space c = false /\ is_space z = false
        /\ (strip s = [c] /\ z = c \/ strip s = c :: m ++ [z]).
Proof.
  unfold strip, lstrip.
  destruct (drop_while is_space s) as [|c t] eqn:El.
  - left. reflexivity.
  - assert (Hc : is_space c = false) by now apply drop_while_not_head in El.
    destruct (rstrip_split (c :: t)) as (d & E & Hd).
    destruct (rstrip (c :: t)) as [|c' r] eqn:Er.
    + simpl in E. subst d. simpl in Hd. now rewrite Hc in Hd.
    + right. simpl in E. inversion E; subst c'.
      destruct (@exists_last _ (c :: r)) as (m & z & Em); [discriminate|].
      assert (Hz : is_space z = false).
      { apply (rstrip_last (c :: t) m z). now rewrite Er. }
      destruct m as [|c0 m]; simpl in Em; inversion Em; subst.
      * exists z, [], z. repeat split; auto.
      * exists c0, m, z. repeat split; auto.
Qed.

Lemma strip_idempotent (s : str) : strip (strip s) = strip s.
Proof.
  destruct (strip_ends s) as [E|(c & m & z & Hc & Hz & [[E _]|E])];
    rewrite E.
  - reflexivity.
  - unfold strip, lstrip, rstrip.
    rewrite (drop_while_head _ _ _ Hc). cbn [rev app].
    now rewrite (drop_while_head _ _ _ Hc).
  - now apply strip_fixed.
Qed.

(** Whitespace around a text does not change what [strip] returns. *)
Lemma strip_padding (before s after : str) :
  forallb is_space before = true -> forallb is_space after = true ->
  strip (before ++ s ++ after) = strip s.
Proof.
  intros Hb Ha. unfold strip, lstrip.
  rewrite drop_while_app_all by assumption.
  destruct (drop_while is_space s) as [|c t] eqn:El.
  - apply drop_while_all in El.
    assert (H : drop_while is_space (s ++ after) = []).
    { apply drop_while_all. now rewrite forallb_app, El, Ha. }
    now rewrite H.
  - rewrite drop_while_app_stop by (rewrite El; discriminate).
    rewrite El. now apply rstrip_app_spaces.
Qed.

Lemma assoc_some_in_snd (A : Type) (c : char) (t : list (char * A)) (v : A) :
  assoc c t = Some v -> In v (map snd t).
Proof.
  induction t as [|[k w] t IH]; simpl; [discriminate|].
  destruct (c =? k); intros H; [inversion H; now left | right; auto].
Qed.

(** Upper-casing a code point that is not whitespace gives at least one code
    point and no whitespace. *)
Lemma upper_char_no_space (c : char) :
  is_space c = false ->
  upper_char c <> [] /\ forallb (fun x => negb (is_space x)) (upper_char c) = true.
Proof.
  intros Hc. unfold upper_char.
  destruct ((97 <=? c) && (c <=? 122)) eqn:Eaz.
  - split; [discriminate|]. simpl. rewrite andb_true_r.
    apply andb_true_iff in Eaz as [H1 H2]. apply N.leb_le in H1, H2.
    destruct (is_space (c - 32)) eqn:E; [|reflexivity].
    apply is_space_in in E. simpl in E.
    repeat (destruct E as [E|E]; [lia|]). destruct E.
  - destruct (assoc c upper_special) as [u|] eqn:Ea.
    + apply assoc_some_in_snd in Ea.
      assert (Hall : forallb (fun u => nonempty u
                        && forallb (fun x => negb (is_space x)) u)
                       (map snd upper_special) = true) by reflexivity.
      rewrite forallb_forall in Hall. specialize (Hall u Ea).
      apply andb_true_iff in Hall as [Hn Hs].
      split; [now destruct u | exact Hs].
    + split; [discriminate|]. simpl. now rewrite Hc.
Qed.

Lemma upper_char_space (c : char) : is_space c = true -> upper_char c = [c].
Proof.
  intros Hc. apply is_space_in in Hc. simpl in Hc.
  repeat (destruct Hc as [Hc|Hc]; [subst c; reflexivity|]). destruct Hc.
Qed.

Lemma upper_app (a b : str) : upper (a ++ b) = upper a ++ upper b.
Proof. unfold upper. apply flat_map_app. Qed.

Lemma upper_lstrip (s : str) : upper (lstrip s) = lstrip (upper s).
Proof.
  unfold lstrip. induction s as [|c s IH]; [reflexivity|].
  simpl drop_while at 1. destruct (is_space c) eqn:Ec.
  - rewrite IH. change (upper (c :: s)) with (upper_char c ++ upper s).
    rewrite (upper_char_space c Ec). simpl. now rewrite Ec.
  - change (upper (c :: s)) with (upper_char c ++ upper s).
    destruct (upper_char_no_space c Ec) as [Hn Hs].
    destruct (upper_char c) as [|x u]; [congruence|].
    simpl in Hs. apply andb_true_iff in Hs as [Hx _].
    simpl. now destruct (is_space x).
Qed.

Lemma upper_rstrip (s : str) : upper (rstrip s) = rstrip (upper s).
Proof.
  induction s as [|z s IH] using rev_ind; [reflexivity|].
  rewrite upper_app. change (upper [z]) with (upper_char z ++ []).
  rewrite app_nil_r.
  destruct (is_space z) eqn:Ez.
  - rewrite rstrip_snoc_space by assumption.
    rewrite (upper_char_space z Ez), rstrip_snoc_space by assumption.
    exact IH.
  - rewrite rstrip_snoc_keep by assumption.
    destruct (upper_char_no_space z Ez) as [Hn Hs].
    destruct (@exists_last _ (upper_char z) Hn) as (u & w & Eu).
    rewrite Eu in Hs |- *. rewrite forallb_app in Hs.
    apply andb_true_iff in Hs as [_ Hw]. simpl in Hw.
    rewrite andb_true_r in Hw. apply negb_true_iff in Hw.
    rewrite upper_app. change (upper [z]) with (upper_char z ++ []).
    rewrite app_nil_r, Eu, app_assoc.
    now rewrite rstrip_snoc_keep.
Qed.

Lemma upper_strip (s : str) : upper (strip s) = strip (upper s).
Proof. unfold strip. now rewrite upper_rstrip, upper_lstrip. Qed.

Lemma upper_char_idempotent (c : char) : upper (upper_char c) = upper_char c.
Proof.
  unfold upper_char.
  destruct ((97 <=? c) && (c <=? 122)) eqn:Eaz.
  - apply andb_true_iff in Eaz as [H1 H2]. apply N.leb_le in H1, H2.
    apply upper_fixed. repeat constructor.
    apply upper_AZ_upper. unfold TicketNormalizer.is_upper_AZ.
    apply andb_true_iff; split; apply N.leb_le; lia.
  - destruct (assoc c upper_special) as [u|] eqn:Ea.
    + apply assoc_some_in_snd in Ea.
      assert (Hall : forallb (fun u => str_eqb (upper u) u)
                       (map snd upper_special) = true) by reflexivity.
      rewrite forallb_forall in Hall. now apply str_eqb_eq, Hall.
    + unfold upper. simpl. unfold upper_char. rewrite Eaz, Ea. reflexivity.
Qed.

End StripFacts.

(** ** The normalizer: what is accepted, and what comes out *)

Section NormalizerExtras.
Import PyStr TicketNormalizer.
Local Open Scope N_scope.

Lemma upper_idempotent (s : str) : upper (upper s) = upper s.
Proof.
  induction s as [|c s IH]; [reflexivity|].
  change (upper (c :: s)) with (upper_char c ++ upper s).
  now rewrite upper_app, upper_char_idempotent, IH.
Qed.

Lemma strip_not_newline_last (s t : str) : strip s <> t ++ [nl].
Proof.
  intros E.
  destruct (strip_ends s) as [E0|(c & m & z & Hc & Hz & [[E1 _]|E1])].
  - rewrite E0 in E. now destruct t.
  - rewrite E1 in E. destruct t as [|x t].
    + inversion E; subst. discriminate.
    + inversion E. now destruct t.
  - rewrite E1 in E.
    change (c :: m ++ [z]) with ((c :: m) ++ [z]) in E.
    apply app_inj_tail in E as [_ ->]. discriminate.
Qed.

Lemma normalize_some_inv (raw project number : str) :
  normalize raw = Some (project, number) ->
  exists digits,
    upper (strip raw) = project ++ lit "-" ++ digits
    /\ project <> [] /\ forallb is_upper_AZ project = true
    /\ digits <> [] /\ forallb is_decimal digits = true
    /\ number = zfill 3 digits.
Proof.
  unfold normalize.
  destruct (re_match (upper (strip raw))) as [[p d]|] eqn:E; [|discriminate].
  intros H; inversion H; subst; clear H.
  destruct (re_match_sound _ _ _ E) as (Hp & Hpa & Hd & Hda & [Es|Es]).
  - exists d. repeat split; assumption.
  - exfalso. rewrite upper_strip in Es.
    apply (strip_not_newline_last (upper raw) (project ++ lit "-" ++ d)).
    rewrite Es. now rewrite <- !app_assoc.
Qed.

(** X1.  [normalize] accepts a raw reference exactly when, trimmed and
    upper-cased, it is one or more letters A-Z, a dash, and one or more decimal
    digits, with nothing before or after; the pair returned is the letters and
    the digits filled with zeros. *)
Theorem normalize_accepts_iff (raw project number : str) :
  normalize raw = Some (project, number) <->
  exists digits,
    upper (strip raw) = project ++ lit "-" ++ digits
    /\ project <> [] /\ forallb is_upper_AZ project = true
    /\ digits <> [] /\ forallb is_decimal digits = true
    /\ number = zfill 3 digits.
Proof.
  split.
  - apply normalize_some_inv.
  - intros (d & Es & Hp & Hpa & Hd & Hda & ->).
    unfold normalize. rewrite Es.
    now rewrite re_match_complete.
Qed.

(** X2.  The pair [normalize] returns: a non-empty project code of letters A-Z, and
    a number of at least three decimal digits; the key formatted from them
    contains nothing that [strip] or [upper] would change, and matches the
    ticket pattern with the same two groups. *)
Theorem normalize_output_shape (raw project number : str) :
  normalize raw = Some (project, number) ->
  project <> []
  /\ forallb is_upper_AZ project = true
  /\ forallb is_decimal number = true
  /\ (3 <= length number)%nat
  /\ upper (strip (format_key project number)) = format_key project number
  /\ re_match (format_key project number) = Some (project, number).
Proof.
  intros H. apply normalize_some_inv in H
    as (d & _ & Hp & Hpa & Hd & Hda & ->).
  assert (Hz : zfill 3 d = repeat 48 (3 - length d) ++ d)
    by now apply zfill_digits.
  assert (Hlen : (3 <= length (zfill 3 d))%nat).
  { rewrite Hz, length_app, repeat_length. lia. }
  assert (Hna : forallb is_decimal (zfill 3 d) = true).
  { rewrite Hz, forallb_app, Hda, andb_true_r.
    apply forallb_forall. intros c Hc.
    apply repeat_spec in Hc. now subst. }
  assert (Hn : zfill 3 d <> []).
  { intros E0. rewrite E0 in Hlen. simpl in Hlen. lia. }
  repeat split; try assumption.
  - now apply format_key_canonical.
  - now apply re_match_complete.
Qed.

Lemma normalize_output_shape_witness :
  (3 <= length (lit "007"))%nat
  /\ re_match (format_key (lit "AB") (lit "007")) = Some (lit "AB", lit "007").
Proof.
  pose proof (normalize_output_shape (lit "ab-7") (lit "AB") (lit "007")
                eq_refl) as (_ & _ & _ & Hl & _ & Hm).
  split; [exact Hl | exact Hm].
Defined.

(** X3.  Whitespace around the raw reference, and upper-casing it beforehand, do
    not change what [normalize] returns. *)
Theorem normalize_ignores_padding_and_case (before raw after : str) :
  forallb is_space before = true ->
  forallb is_space after = true ->
  normalize (before ++ raw ++ after) = normalize raw
  /\ normalize (upper raw) = normalize raw
  /\ normalize (strip raw) = normalize raw.
Proof.
  intros Hb Ha. unfold normalize. repeat split.
  - now rewrite strip_padding.
  - now rewrite <- upper_strip, upper_idempotent.
  - now rewrite strip_idempotent.
Qed.

Lemma normalize_ignores_padding_and_case_witness :
  normalize (lit "  " ++ lit "mdt-66" ++ [nl]) = normalize (lit "mdt-66")
  /\ normalize (upper (lit "mdt-66")) = normalize (lit "mdt-66").
Proof.
  destruct (normalize_ignores_padding_and_case (lit "  ") (lit "mdt-66") [nl]
              eq_refl eq_refl) as (H1 & H2 & _).
  split; [exact H1 | exact H2].
Defined.

End NormalizerExtras.

(** ** The protocol client: which line is parsed, and how a call fails *)

Section CallExtras.
Import PyStr MCPClient.
Local Open Scope N_scope.

(** A line whose trimmed text starts with an opening brace. *)
Definition brace_line (line : str) : bool :=
  startswith (lit "{") (strip line).

Lemma find_json_line_first (lines : list str) :
  match find_json_line lines with
  | Some json_line =>
      exists skipped line rest,
        lines = skipped ++ line :: rest
        /\ json_line = strip line
        /\ brace_line line = true
        /\ forallb (fun l => negb (brace_line l)) skipped = true
  | None => forallb (fun l => negb (brace_line l)) lines = true
  end.
Proof.
  induction lines as [|l lines IH]; cbn [find_json_line]; [reflexivity|].
  fold (brace_line l). destruct (brace_line l) eqn:El.
  - exists [], l, lines. repeat split. exact El.
  - destruct (find_json_line lines) as [j|].
    + destruct IH as (sk & line & rest & -> & Ej & Hb & Hs).
      exists (l :: sk), line, rest. repeat split; try assumption.
      cbn [forallb]. now rewrite El, Hs.
    + cbn [forallb]. now rewrite El, IH.
Qed.

Variable json_loads : str -> json_result.
Variable run_server : pyval -> process_run.

(** X4.  A call returns a value only in one way: the server exited with status 0;
    among the lines of its trimmed output, the last one that starts with a
    brace, trimmed, was parsed by [json.loads] into an object; that object has
    no [error] entry and has a [result] entry; and the value is what the
    result unwraps to.  Lines before that line are not looked at, and lines
    after it do not start with a brace. *)
Theorem call_ok_inversion (tool_name : str) (params : list (str * pyval))
  (value : pyval) :
  _call_mcp_tool json_loads run_server tool_name params = Ok value ->
  exists stdout stderr before line after env result,
    run_server (make_request tool_name params) = Exited 0 stdout stderr
    /\ split [nl] (strip stdout) = before ++ line :: after
    /\ brace_line line = true
    /\ forallb (fun l => negb (brace_line l)) after = true
    /\ json_loads (strip line) = JsonValue (PDict env)
    /\ dict_get (lit "error") env = None
    /\ dict_get (lit "result") env = Some result
    /\ unwrap_result result = Ok value.
Proof.
  unfold _call_mcp_tool.
  destruct (run_server (make_request tool_name params))
    as [| | |rc stdout stderr] eqn:Erun; try discriminate.
  destruct (Z.eqb_spec rc 0) as [->|Hrc]; cbn [negb]; [|discriminate].
  pose proof (find_json_line_first (rev (split [nl] (strip stdout)))) as Hf.
  destruct (find_json_line (rev (split [nl] (strip stdout)))) as [j|];
    [|discriminate].
  destruct Hf as (sk & line & rest & Erev & -> & Hb & Hs).
  destruct (json_loads (strip line)) as [response| |] eqn:Ej;
    try discriminate.
  unfold or_unexpected.
  destruct (handle_response response) as [v|e] eqn:Eh; [|discriminate].
  intros H; inversion H; subst v; clear H.
  unfold handle_response in Eh.
  destruct response as [| | | | s | l | env]; try discriminate.
  - now destruct (contains (lit "error") s || contains (lit "result") s).
  - now destruct (existsb (is_str (lit "error")) l
                  || existsb (is_str (lit "result")) l).
  - destruct (dict_get (lit "error") env) eqn:Ee; [discriminate|].
    destruct (dict_get (lit "result") env) as [result|] eqn:Er;
      [|discriminate].
    exists stdout, stderr, (rev rest), line, (rev sk), env, result.
    repeat split; try assumption.
    + apply (f_equal (@rev (list N))) in Erev.
      rewrite rev_involutive in Erev. rewrite Erev, rev_app_distr.
      simpl. now rewrite <- app_assoc.
    + rewrite forallb_forall in Hs |- *. intros x Hx. apply Hs.
      now apply in_rev.
Qed.

(** X5.  A non-zero exit status always gives the server error with the trimmed
    error stream (or "Unknown error" when that stream is empty), wrapped as
    an unexpected error; the output stream is not looked at, whatever it
    holds. *)
Theorem nonzero_exit_is_server_error (tool_name : str)
  (params : list (str * pyval)) (returncode : Z) (stdout stderr : str) :
  run_server (make_request tool_name params)
  = Exited returncode stdout stderr ->
  returncode <> 0%Z ->
  _call_mcp_tool json_loads run_server tool_name params
  = Raise (Unexpected (ServerError
             (match stderr with
              | [] => lit "Unknown error"
              | _ :: _ => strip stderr
              end))).
Proof.
  intros Hrun Hrc. unfold _call_mcp_tool. rewrite Hrun.
  destruct (Z.eqb_spec returncode 0) as [E|_]; [congruence|].
  cbn [negb or_unexpected]. now destruct stderr.
Qed.

(** X6.  A call fails with the timeout exactly when the process timed out, and
    with the missing server exactly when the executable was not found.  Every
    other failure is an unexpected error wrapping its cause, which for a
    parsed response with an [error] entry is the tool error with that entry,
    even when a [result] entry is there as well. *)
Theorem call_failure_kinds (tool_name : str) (params : list (str * pyval)) :
  (_call_mcp_tool json_loads run_server tool_name params = Raise ServerTimeout
   <-> run_server (make_request tool_name params) = TimedOut)
  /\ (_call_mcp_tool json_loads run_server tool_name params
      = Raise ServerNotFound
      <-> run_server (make_request tool_name params) = NotFound)
  /\ (forall e,
        _call_mcp_tool json_loads run_server tool_name params = Raise e ->
        e = ServerTimeout \/ e = ServerNotFound
        \/ (exists cause, e = Unexpected cause
            /\ forall stdout stderr line env payload,
                 run_server (make_request tool_name params)
                 = Exited 0 stdout stderr ->
                 find_json_line (rev (split [nl] (strip stdout)))
                 = Some line ->
                 json_loads line = JsonValue (PDict env) ->
                 dict_get (lit "error") env = Some payload ->
                 cause = ToolError payload)).
Proof.
  unfold _call_mcp_tool.
  destruct (run_server (make_request tool_name params))
    as [| | |rc stdout stderr] eqn:Erun.
  - split; [split; discriminate|]. split; [now split|].
    intros e H. right; left. congruence.
  - split; [split; discriminate|]. split; [split; discriminate|].
    intros e H. right; right. inversion H; subst. eexists.
    split; [reflexivity|]. discriminate.
  - split; [now split|]. split; [split; discriminate|].
    intros e H. left. congruence.
  - unfold or_unexpected.
    match goal with
    | |- context [match ?r with Ok _ => _ | Raise _ => _ end] =>
        destruct r as [v|cause] eqn:Er
    end.
    + split; [split; discriminate|]. split; [split; discriminate|].
      discriminate.
    + split; [split; discriminate|]. split; [split; discriminate|].
      intros e H. right; right.
      inversion H; subst e. exists cause. split; [reflexivity|].
      intros stdout' stderr' line env payload E Hl Hj He.
      inversion E; subst. cbn [Z.eqb negb] in Er.
      rewrite Hl, Hj in Er. cbn [handle_response] in Er.
      rewrite He in Er. now inversion Er.
Qed.

End CallExtras.

Section CallWitnesses.
Import PyStr MCPClient.
Local Open Scope N_scope.

Lemma call_ok_inversion_witness :
  exists line env result,
    only_ab (strip line) = JsonValue (PDict env)
    /\ dict_get (lit "result") env = Some result
    /\ unwrap_result result = Ok (PStr (lit "AB")).
Proof.
  assert (H : _call_mcp_tool only_ab
                (fun _ => Exited 0 (ab_line ++ [nl]) []) (lit "get_cr") []
              = Ok (PStr (lit "AB"))) by reflexivity.
  destruct (call_ok_inversion only_ab _ _ _ _ H)
    as (stdout & stderr & before & line & after & env & result
        & _ & _ & _ & _ & Hj & _ & Hr & Hu).
  now exists line, env, result.
Defined.

Lemma nonzero_exit_is_server_error_witness :
  _call_mcp_tool only_ab (fun _ => Exited 2 ab_line (lit " boom "))
    (lit "get_cr") []
  = Raise (Unexpected (ServerError (lit "boom"))).
Proof.
  apply (nonzero_exit_is_server_error only_ab
           (fun _ => Exited 2 ab_line (lit " boom "))
           (lit "get_cr") [] 2 ab_line (lit " boom ") eq_refl).
  discriminate.
Defined.

(** A server that answers with an object holding both an error and a
    result. *)
Definition error_and_result : pyval :=
  PDict [ (lit "error", PStr (lit "denied"));
          (lit "result", PStr (lit "ignored")) ].

Lemma call_failure_kinds_witness :
  _call_mcp_tool (fun _ => JsonValue error_and_result)
    (fun _ => Exited 0 (lit "{}") []) (lit "get_cr") []
  = Raise (Unexpected (ToolError (PStr (lit "denied"))))
  /\ _call_mcp_tool (fun _ => JsonValue error_and_result)
       (fun _ => TimedOut) (lit "get_cr") []
     = Raise ServerTimeout.
Proof.
  split.
  - destruct (proj2 (proj2 (call_failure_kinds
                              (fun _ => JsonValue error_and_result)
                              (fun _ => Exited 0 (lit "{}") [])
                              (lit "get_cr") []))
                (Unexpected (ToolError (PStr (lit "denied")))) eq_refl)
      as [H|[H|(cause & H & Hc)]]; try discriminate.
    inversion H; subst cause. reflexivity.
  - apply (proj2 (proj1 (call_failure_kinds
                           (fun _ => JsonValue error_and_result)
                           (fun _ => TimedOut) (lit "get_cr") []))).
    reflexivity.
Defined.

End CallWitnesses.

(** ** Content items whose text is not a string *)

Section ContentExtras.
Import PyStr MCPClient.
Local Open Scope N_scope.

(** An item that is an object with a [text] entry that is not a string. *)
Definition text_not_str (item : pyval) : bool :=
  match item with
  | PDict d =>
      match dict_get (lit "text") d with
      | Some (PStr _) | None => false
      | Some _ => true
      end
  | _ => false
  end.

Lemma concat_text_run (items : list pyval) (acc : str) :
  concat_text acc items
  = if existsb text_not_str items then Raise OtherException
    else Ok (acc ++ flat_map text_field items).
Proof.
  revert acc. induction items as [|item items IH]; intros acc.
  - cbn. now rewrite app_nil_r.
  - cbn [concat_text existsb flat_map].
    destruct item as [| | | | | |d]; cbn [text_not_str text_field orb app];
      try apply IH.
    destruct (dict_get (lit "text") d) as [[| | | |t| |]|];
      cbn [orb app]; try reflexivity; [|apply IH].
    rewrite IH. now rewrite app_assoc.
Qed.

(** X7.  For a result whose [content] is a non-empty list, the call fails as soon
    as one item is an object whose [text] entry is not a string, whatever the
    other items are, and the failure reaches the caller as an unexpected
    error; otherwise the texts of the items are concatenated. *)
Theorem content_text_not_string
  (json_loads : str -> json_result) (run_server : pyval -> process_run)
  (d : list (str * pyval)) (item : pyval) (items : list pyval) :
  dict_get (lit "content") d = Some (PList (item :: items)) ->
  unwrap_result (PDict d)
  = (if existsb text_not_str (item :: items) then Raise OtherException
     else Ok (PStr (flat_map text_field (item :: items))))
  /\ (forall tool_name params stdout stderr line env,
        run_server (make_request tool_name params)
        = Exited 0 stdout stderr ->
        find_json_line (rev (split [nl] (strip stdout))) = Some line ->
        json_loads line = JsonValue (PDict env) ->
        dict_get (lit "error") env = None ->
        dict_get (lit "result") env = Some (PDict d) ->
        existsb text_not_str (item :: items) = true ->
        _call_mcp_tool json_loads run_server tool_name params
        = Raise (Unexpected OtherException)).
Proof.
  intros Hc.
  assert (E : unwrap_result (PDict d)
              = if existsb text_not_str (item :: items)
                then Raise OtherException
                else Ok (PStr (flat_map text_field (item :: items)))).
  { unfold unwrap_result. rewrite Hc, concat_text_run.
    now destruct (existsb text_not_str (item :: items)). }
  split; [exact E|].
  intros tool_name params stdout stderr line env Hrun Hl Hj He Hr Hbad.
  unfold _call_mcp_tool. rewrite Hrun. cbn [Z.eqb negb].
  rewrite Hl, Hj. cbn [handle_response]. rewrite He, Hr, E, Hbad.
  reflexivity.
Qed.

Lemma content_text_not_string_witness :
  unwrap_result
    (PDict [ (lit "content",
              PList [ PDict [ (lit "text", PStr (lit "A")) ];
                      PDict [ (lit "text", PInt 7) ] ]) ])
  = Raise OtherException.
Proof.
  exact (proj1 (content_text_not_string (fun _ => JsonDecodeError)
                  (fun _ => NotFound)
                  [ (lit "content",
                     PList [ PDict [ (lit "text", PStr (lit "A")) ];
                             PDict [ (lit "text", PInt 7) ] ]) ]
                  (PDict [ (lit "text", PStr (lit "A")) ])
                  [ PDict [ (lit "text", PInt 7) ] ] eq_refl)).
Defined.

End ContentExtras.

(** ** Section text and attribute text *)

Section ParsingExtras.
Import PyStr MCPClient.
Local Open Scope N_scope.

(** A line that is [---] once trimmed. *)
Definition delimiter_line (line : str) : bool :=
  str_eqb (strip line) (lit "---").

(** A line that is kept inside the delimiters: not blank, and not one of the
    three marker lines. *)
Definition content_line (line : str) : bool :=
  nonempty (strip line)
  && negb (startswith section_icon line)
  && negb (startswith (lit "**Section:") line)
  && negb (startswith (lit "**Content Length:") line).

Lemma extract_lines_outside (acc before rest : list str) :
  forallb (fun l => negb (delimiter_line l)) before = true ->
  extract_lines false acc (before ++ rest) = extract_lines false acc rest.
Proof.
  induction before as [|l before IH]; [reflexivity|].
  cbn [forallb app extract_lines]. intros H.
  apply andb_true_iff in H as [Hl Hb]. fold (delimiter_line l).
  apply negb_true_iff in Hl. rewrite Hl. now apply IH.
Qed.

Lemma extract_lines_inside (acc inside rest : list str) :
  forallb (fun l => negb (delimiter_line l)) inside = true ->
  extract_lines true acc (inside ++ rest)
  = extract_lines true (acc ++ filter content_line inside) rest.
Proof.
  revert acc. induction inside as [|l inside IH]; intros acc H.
  - cbn [filter app]. now rewrite app_nil_r.
  - cbn [forallb] in H. apply andb_true_iff in H as [Hl Hb].
    apply negb_true_iff in Hl.
    cbn [app extract_lines filter]. fold (delimiter_line l). rewrite Hl.
    fold (content_line l). destruct (content_line l).
    + rewrite IH by assumption. now rewrite <- app_assoc.
    + now apply IH.
Qed.

(** X8.  The section text is taken from between the first two delimiter lines:
    what comes before the first and what comes after the second is dropped,
    the blank lines and marker lines in between are dropped, and the rest is
    joined and trimmed.  With a single delimiter line, everything after it
    counts as in between. *)
Theorem section_content_between_delimiters
  (response_text : str) (before inside tail : list str) (first : str) :
  split [nl] response_text = before ++ first :: inside ++ tail ->
  forallb (fun l => negb (delimiter_line l)) before = true ->
  delimiter_line first = true ->
  forallb (fun l => negb (delimiter_line l)) inside = true ->
  (tail = [] \/ exists second after,
      tail = second :: after /\ delimiter_line second = true) ->
  _extract_section_content response_text
  = strip (join [nl] (filter content_line inside)).
Proof.
  intros Hsplit Hb Hf Hi Ht. unfold _extract_section_content.
  cbv zeta. rewrite Hsplit, extract_lines_outside by assumption.
  cbn [extract_lines]. fold (delimiter_line first). rewrite Hf.
  rewrite extract_lines_inside by assumption. cbn [app].
  destruct Ht as [->|(second & after & -> & Hs)]; [reflexivity|].
  cbn [extract_lines]. fold (delimiter_line second). now rewrite Hs.
Qed.

Lemma section_content_between_delimiters_witness :
  _extract_section_content
    (join [nl] [lit "Section of MDT-066"; lit " --- "; lit "**Section: x";
                lit ""; lit "First line"; lit "Second line"; lit "---";
                lit "trailer"])
  = join [nl] [lit "First line"; lit "Second line"].
Proof.
  rewrite (section_content_between_delimiters _
             [lit "Section of MDT-066"]
             [lit "**Section: x"; lit ""; lit "First line"; lit "Second line"]
             [lit "---"; lit "trailer"] (lit " --- ")); try reflexivity.
  right. now exists (lit "---"), [lit "trailer"].
Defined.

(** X9.  Without a delimiter line nothing is extracted, and the section call
    then adds nothing to the record. *)
Theorem section_content_needs_delimiter (response_text : str) :
  forallb (fun l => negb (delimiter_line l)) (split [nl] response_text)
  = true ->
  _extract_section_content response_text = []
  /\ forall json_loads run_server project key section_name,
       _call_mcp_tool json_loads run_server (lit "get_cr_section")
         (section_params project key section_name)
       = Ok (PStr response_text) ->
       section_value json_loads run_server project key section_name = None.
Proof.
  intros H.
  assert (E : _extract_section_content response_text = []).
  { unfold _extract_section_content. cbv zeta.
    rewrite <- (app_nil_r (split [nl] response_text)).
    now rewrite extract_lines_outside. }
  split; [exact E|].
  intros json_loads run_server project key section_name Hc.
  unfold section_value. now rewrite Hc, E.
Qed.

Lemma section_content_needs_delimiter_witness :
  _extract_section_content (join [nl] [lit "no"; lit "-- -"; lit "rules"])
  = [].
Proof.
  apply (section_content_needs_delimiter
           (join [nl] [lit "no"; lit "-- -"; lit "rules"])).
  reflexivity.
Defined.

(** *** Attribute text *)

(** The dictionary of the five attributes. *)
Definition attrs_of (key title type priority status : str)
  : list (str * str) :=
  [ (lit "key", key); (lit "title", title); (lit "type", type);
    (lit "priority", priority); (lit "status", status) ].

(** A trimmed line that is read as the header line. *)
Definition header_line (line : str) : bool :=
  startswith (header_icon ++ lit " **") line && contains (lit " - ") line.

(** The title a header line gives: what follows the first [" - "], without
    the stars at its end, trimmed. *)
Definition header_title (line : str) : str :=
  match snd (split_once (lit " - ") line) with
  | Some rest => strip (rstrip_char 42 rest)
  | None => []
  end.

(** The value a labelled line gives: the line without the occurrences of the
    label, trimmed. *)
Definition labelled_value (label : string) (line : str) : str :=
  strip (replace (lit label) [] line).

(** The value of a field: computed from the last of the trimmed lines that
    is of the field's kind, or the default when there is none. *)
Definition last_field (is_line : str -> bool) (value : str -> str)
  (default : str) (lines : list str) : str :=
  match find is_line (rev (map strip lines)) with
  | Some line => value line
  | None => default
  end.

Lemma last_field_snoc (is_line : str -> bool) (value : str -> str)
  (default : str) (lines : list str) (line : str) :
  last_field is_line value default (lines ++ [line])
  = if is_line (strip line) then value (strip line)
    else last_field is_line value default lines.
Proof.
  unfold last_field. rewrite map_app, rev_app_distr. simpl.
  now destruct (is_line (strip line)).
Qed.

Lemma split_once_from_found (sep cur s : str) :
  sep <> [] -> contains sep s = true ->
  snd (split_once_from sep cur s) <> None.
Proof.
  intros Hsep. revert cur. induction s as [|c s IH]; intros cur H.
  - destruct sep; [congruence | discriminate].
  - cbn [split_once_from]. cbn [contains] in H.
    destruct (startswith sep (c :: s)); [discriminate|].
    simpl in H. now apply IH.
Qed.

Lemma header_not_labelled (line : str) :
  startswith (header_icon ++ lit " **") line = true ->
  startswith (lit "- Status:") line = false
  /\ startswith (lit "- Type:") line = false
  /\ startswith (lit "- Priority:") line = false.
Proof.
  intros H. apply startswith_inv in H as [t ->]. now repeat split.
Qed.

Lemma status_not_others (line : str) :
  startswith (lit "- Status:") line = true ->
  startswith (lit "- Type:") line = false
  /\ startswith (lit "- Priority:") line = false.
Proof.
  intros H. apply startswith_inv in H as [t ->]. now repeat split.
Qed.

Lemma type_not_priority (line : str) :
  startswith (lit "- Type:") line = true ->
  startswith (lit "- Priority:") line = false.
Proof.
  intros H. apply startswith_inv in H as [t ->]. reflexivity.
Qed.

(** X10.  The attribute dictionary always holds the five keys; [key] is the key
    that was asked for; each of the other four comes from the last line of
    its kind, whatever the other lines are, and keeps its default ("No Title",
    "Unknown", "Medium", "Unknown") when no line is of its kind. *)
Theorem parse_cr_response_last_line_wins (response_text key : str) :
  let lines := split [nl] response_text in
  _parse_cr_response response_text key
  = attrs_of key
      (last_field header_line header_title (lit "No Title") lines)
      (last_field (startswith (lit "- Type:")) (labelled_value "- Type:")
         (lit "Unknown") lines)
      (last_field (startswith (lit "- Priority:"))
         (labelled_value "- Priority:") (lit "Medium") lines)
      (last_field (startswith (lit "- Status:")) (labelled_value "- Status:")
         (lit "Unknown") lines).
Proof.
  cbv zeta. unfold _parse_cr_response. cbv zeta.
  induction (split [nl] response_text) as [|line lines IH] using rev_ind.
  - reflexivity.
  - rewrite fold_left_app. cbn [fold_left]. rewrite IH.
    rewrite !last_field_snoc. unfold parse_line. cbv zeta.
    fold (header_line (strip line)).
    destruct (header_line (strip line)) eqn:Eh.
    + unfold header_line in Eh. apply andb_true_iff in Eh as [Hi Hc].
      destruct (header_not_labelled _ Hi) as (-> & -> & ->).
      pose proof (split_once_from_found (lit " - ") [] (strip line)
                    ltac:(discriminate) Hc) as Hs.
      unfold header_title. unfold split_once in *.
      destruct (split_once_from (lit " - ") [] (strip line)) as [pre [rest|]];
        [reflexivity | now contradiction Hs].
    + destruct (startswith (lit "- Status:") (strip line)) eqn:Es.
      * destruct (status_not_others _ Es) as (-> & ->). reflexivity.
      * destruct (startswith (lit "- Type:") (strip line)) eqn:Et.
        -- rewrite (type_not_priority _ Et). reflexivity.
        -- now destruct (startswith (lit "- Priority:") (strip line)).
Qed.

End ParsingExtras.

(** ** The ticket record *)

Section RecordExtras.
Import PyStr MCPClient.
Local Open Scope N_scope.

Lemma str_eqb_refl (a : str) : str_eqb a a = true.
Proof. now apply str_eqb_eq. Qed.

Lemma dict_get_set_same (A : Type) (k : str) (v : A) (d : list (str * A)) :
  dict_get k (dict_set k v d) = Some v.
Proof.
  induction d as [|[k' v'] d IH]; simpl.
  - now rewrite str_eqb_refl.
  - destruct (str_eqb k k') eqn:E; simpl.
    + now rewrite str_eqb_refl.
    + now rewrite E.
Qed.

Lemma dict_get_set_other (A : Type) (k k' : str) (v : A)
  (d : list (str * A)) :
  str_eqb k k' = false -> dict_get k (dict_set k' v d) = dict_get k d.
Proof.
  intros Hk. induction d as [|[k0 v0] d IH]; simpl.
  - now rewrite Hk.
  - destruct (str_eqb k' k0) eqn:E; simpl.
    + apply str_eqb_eq in E. subst k0. now rewrite Hk.
    + destruct (str_eqb k k0); [reflexivity | exact IH].
Qed.

Lemma parse_line_keeps_key (attrs : list (str * str)) (line : str) :
  dict_get (lit "key") (parse_line attrs line) = dict_get (lit "key") attrs.
Proof.
  unfold parse_line. cbv zeta.
  destruct (_ && _).
  - destruct (split_once (lit " - ") (strip line)) as [pre [rest|]];
      [now apply dict_get_set_other | reflexivity].
  - repeat (match goal with
            | |- context [if ?b then _ else _] => destruct b
            end; [now apply dict_get_set_other|]).
    reflexivity.
Qed.

Lemma parse_cr_response_key (response_text key : str) :
  dict_get (lit "key") (_parse_cr_response response_text key) = Some key.
Proof.
  unfold _parse_cr_response. cbv zeta.
  set (attrs := [(lit "key", key); _; _; _; _]).
  assert (H : dict_get (lit "key") attrs = Some key) by reflexivity.
  revert H. generalize attrs.
  induction (split [nl] response_text) as [|line lines IH]; intros a H;
    [exact H|].
  cbn [fold_left]. apply IH. now rewrite parse_line_keeps_key.
Qed.

Lemma extract_section_content_trimmed (text : str) :
  strip (_extract_section_content text) = _extract_section_content text.
Proof. unfold _extract_section_content. apply strip_idempotent. Qed.

Variable json_loads : str -> json_result.
Variable run_server : pyval -> process_run.
Variable stdout_prints : list warning -> warning -> bool.

Lemma section_value_some (project key section_name text : str) :
  section_value json_loads run_server project key section_name = Some text ->
  text <> [] /\ strip text = text.
Proof.
  unfold section_value.
  destruct (_call_mcp_tool _ _ _ _) as [[| | | |s| |]|]; try discriminate.
  destruct (_extract_section_content s) as [|c r] eqn:E; [discriminate|].
  intros H; inversion H; subst. split; [discriminate|].
  rewrite <- E. apply extract_section_content_trimmed.
Qed.

(** A dictionary of sections all of whose values are non-empty and have no
    whitespace at either end. *)
Definition all_trimmed (sections : list (str * str)) : Prop :=
  forall k text, dict_get k sections = Some text ->
                 text <> [] /\ strip text = text.

Lemma all_trimmed_set (k : str) (v : str) (sections : list (str * str)) :
  v <> [] /\ strip v = v -> all_trimmed sections ->
  all_trimmed (dict_set k v sections).
Proof.
  intros Hv Hs k' text. destruct (str_eqb k' k) eqn:E.
  - apply str_eqb_eq in E. subst k'. rewrite dict_get_set_same.
    intros H; inversion H; subst. exact Hv.
  - rewrite dict_get_set_other by exact E. apply Hs.
Qed.

Lemma fetch_section_trimmed (project key section_name : str)
  (sections sections' : list (str * str)) :
  all_trimmed sections ->
  fetch_section json_loads run_server project key sections section_name
  = Ok sections' ->
  all_trimmed sections'.
Proof.
  intros Hs. rewrite fetch_section_run.
  destruct (section_failure _ _ _ _ _); [discriminate|].
  intros H; inversion H; subst sections'; clear H. unfold with_section.
  destruct (section_value json_loads run_server project key section_name)
    as [text|] eqn:Ev; [|exact Hs].
  apply all_trimmed_set; [|exact Hs].
  now apply (section_value_some project key section_name).
Qed.

(** Whatever the stream does, the loop keeps the dictionary trimmed. *)
Lemma fetch_sections_trimmed (project key : str) (names : list str)
  (sections : list (str * str)) (printed : list warning) :
  all_trimmed sections ->
  all_trimmed
    (fst (fst (fetch_sections json_loads run_server stdout_prints
                 project key names sections printed))).
Proof.
  revert sections printed.
  induction names as [|section_name rest IH]; intros sections printed Hs;
    [exact Hs|].
  cbn [fetch_sections].
  destruct (fetch_section json_loads run_server project key sections
              section_name) as [sections'|e] eqn:Ef.
  - apply IH. exact (fetch_section_trimmed _ _ _ _ _ Hs Ef).
  - destruct (stdout_prints printed (SectionWarning section_name key e)).
    + now apply IH.
    + exact Hs.
Qed.

Lemma get_ticket_sections_trimmed (project key : str)
  (sections : list (str * str)) :
  _get_ticket_sections json_loads run_server stdout_prints project key
  = Ok sections ->
  all_trimmed sections.
Proof.
  unfold _get_ticket_sections, sections_and_warnings.
  assert (H0 : all_trimmed []) by (intros k text; discriminate).
  pose proof (fetch_sections_trimmed project key section_names [] [] H0)
    as Ht.
  destruct (fetch_sections json_loads run_server stdout_prints project key
              section_names [] []) as [[s p] [e|]]; cbn [fst] in *.
  - destruct (stdout_prints p (SectionsWarning key e)); cbn [fst];
      intros H; inversion H; subst; exact Ht.
  - intros H; inversion H; subst; exact Ht.
Qed.

(** X11.  A record that [get_ticket] returns carries the key it was asked for, and
    came from an attribute call that returned a non-empty text; a description
    or rationale that is present is never empty and has no whitespace at
    either end. *)
Theorem get_ticket_record_invariant (project key : str)
  (ticket : TicketData) :
  get_ticket json_loads run_server stdout_prints project key
  = Ok (Some ticket) ->
  MCPClient.key ticket = key
  /\ (exists text,
        _call_mcp_tool json_loads run_server (lit "get_cr")
          [ (lit "project", PStr project); (lit "key", PStr key) ]
        = Ok (PStr text)
        /\ text <> [])
  /\ (forall text, description ticket = Some text ->
        text <> [] /\ strip text = text)
  /\ (forall text, rationale ticket = Some text ->
        text <> [] /\ strip text = text).
Proof.
  unfold get_ticket.
  destruct (_call_mcp_tool _ _ (lit "get_cr") _) as [v|e]; [|discriminate].
  destruct (truthy v) eqn:Et; cbn [negb]; [|discriminate].
  destruct v as [| | | |text| |]; try discriminate.
  destruct (_get_ticket_sections json_loads run_server stdout_prints
              project key) as [sections|e] eqn:Es; [|discriminate].
  apply get_ticket_sections_trimmed in Es.
  intros H; inversion H; subst ticket; clear H.
  cbn [MCPClient.key description rationale].
  split; [|split; [|split]].
  - unfold dict_get_default. now rewrite parse_cr_response_key.
  - exists text. split; [reflexivity|]. now destruct text.
  - intros t Ht. exact (Es _ _ Ht).
  - intros t Ht. exact (Es _ _ Ht).
Qed.

(** An exception leaves the loop only at a section that failed and whose
    warning the stream did not print. *)
Lemma fetch_sections_left (project key : str) (names : list str)
  (sections sections' : list (str * str)) (printed printed' : list warning)
  (e : exn) :
  fetch_sections json_loads run_server stdout_prints project key names
    sections printed
  = (sections', printed', Some e) ->
  e = OtherException
  /\ exists section_name cause,
       In section_name names
       /\ section_failure json_loads run_server project key section_name
          = Some cause
       /\ stdout_prints printed' (SectionWarning section_name key cause)
          = false.
Proof.
  revert sections printed.
  induction names as [|section_name rest IH]; intros sections printed;
    [discriminate|].
  cbn [fetch_sections]. rewrite fetch_section_run.
  destruct (section_failure json_loads run_server project key section_name)
    as [cause|] eqn:Ef.
  - destruct (stdout_prints printed (SectionWarning section_name key cause))
      eqn:Ep.
    + intros H. destruct (IH _ _ H) as (He & n & c & Hin & Hf & Hp).
      split; [exact He|]. exists n, c. repeat split; auto. now right.
    + intros H; inversion H; subst. split; [reflexivity|].
      exists section_name, cause. repeat split; auto. now left.
  - intros H. destruct (IH _ _ H) as (He & n & c & Hin & Hf & Hp).
    split; [exact He|]. exists n, c. repeat split; auto. now right.
Qed.

(** [_get_ticket_sections] raises only when a section failed and the stream
    printed neither its warning nor the overall warning. *)
Lemma get_ticket_sections_raise (project key : str) (e : exn) :
  _get_ticket_sections json_loads run_server stdout_prints project key
  = Raise e ->
  e = OtherException
  /\ exists section_name cause printed,
       In section_name section_names
       /\ section_failure json_loads run_server project key section_name
          = Some cause
       /\ stdout_prints printed (SectionWarning section_name key cause)
          = false
       /\ stdout_prints printed (SectionsWarning key OtherException)
          = false.
Proof.
  unfold _get_ticket_sections, sections_and_warnings.
  destruct (fetch_sections json_loads run_server stdout_prints project key
              section_names [] []) as [[s p] [e0|]] eqn:Ef;
    [|discriminate].
  destruct (fetch_sections_left _ _ _ _ _ _ _ _ Ef)
    as (-> & n & c & Hin & Hf & Hp).
  destruct (stdout_prints p (SectionsWarning key OtherException)) eqn:Eo;
    cbn [fst]; [discriminate|].
  intros H; inversion H; subst. split; [reflexivity|].
  now exists n, c, p.
Qed.

(** X12.  [get_ticket] reports "not found" exactly when the attribute call
    returned a value that is false as a condition (an empty text, an empty
    object, ...).  When it raises, the cause is the attribute call's own
    error, or the attribute value is not a text, or the attribute call
    returned a text and a section failed while the stream printed neither
    that section's warning nor the overall warning.  With a stream that
    prints every warning, the attribute call alone decides. *)
Theorem get_ticket_without_record (project key : str) :
  let attributes :=
    _call_mcp_tool json_loads run_server (lit "get_cr")
      [ (lit "project", PStr project); (lit "key", PStr key) ] in
  (get_ticket json_loads run_server stdout_prints project key = Ok None
   <-> exists value, attributes = Ok value /\ truthy value = false)
  /\ (forall e,
        get_ticket json_loads run_server stdout_prints project key
        = Raise e ->
        exists cause,
          e = FetchError cause
          /\ (attributes = Raise cause
              \/ (cause = OtherException
                  /\ exists value,
                       attributes = Ok value /\ truthy value = true
                       /\ forall text, value <> PStr text)
              \/ (cause = OtherException
                  /\ (exists text, attributes = Ok (PStr text) /\ text <> [])
                  /\ exists section_name failure printed,
                       In section_name section_names
                       /\ section_failure json_loads run_server project key
                            section_name = Some failure
                       /\ stdout_prints printed
                            (SectionWarning section_name key failure) = false
                       /\ stdout_prints printed
                            (SectionsWarning key OtherException) = false)))
  /\ ((forall p w, stdout_prints p w = true) ->
      forall e,
        get_ticket json_loads run_server stdout_prints project key
        = Raise e ->
        exists cause,
          e = FetchError cause
          /\ (attributes = Raise cause
              \/ (cause = OtherException
                  /\ exists value,
                       attributes = Ok value /\ truthy value = true
                       /\ forall text, value <> PStr text))).
Proof.
  cbv zeta.
  assert (Hraise : forall e,
    get_ticket json_loads run_server stdout_prints project key = Raise e ->
    exists cause,
      e = FetchError cause
      /\ (_call_mcp_tool json_loads run_server (lit "get_cr")
            [ (lit "project", PStr project); (lit "key", PStr key) ]
          = Raise cause
          \/ (cause = OtherException
              /\ exists value,
                   _call_mcp_tool json_loads run_server (lit "get_cr")
                     [ (lit "project", PStr project); (lit "key", PStr key) ]
                   = Ok value /\ truthy value = true
                   /\ forall text, value <> PStr text)
          \/ (cause = OtherException
              /\ (exists text,
                    _call_mcp_tool json_loads run_server (lit "get_cr")
                      [ (lit "project", PStr project);
                        (lit "key", PStr key) ]
                    = Ok (PStr text) /\ text <> [])
              /\ exists section_name failure printed,
                   In section_name section_names
                   /\ section_failure json_loads run_server project key
                        section_name = Some failure
                   /\ stdout_prints printed
                        (SectionWarning section_name key failure) = false
                   /\ stdout_prints printed
                        (SectionsWarning key OtherException) = false))).
  { unfold get_ticket.
    destruct (_call_mcp_tool _ _ (lit "get_cr") _) as [v|e0].
    - destruct (truthy v) eqn:Et; cbn [negb]; [|discriminate].
      intros e H.
      destruct v as [| | | |text| |];
        try (inversion H; subst; exists OtherException;
             (split; [reflexivity|]); right; left; (split; [reflexivity|]);
             eexists; repeat split; try eassumption; discriminate).
      destruct (_get_ticket_sections json_loads run_server stdout_prints
                  project key) as [sections|e1] eqn:Es; [discriminate|].
      inversion H; subst e; clear H.
      destruct (get_ticket_sections_raise _ _ _ Es) as (-> & Hs).
      exists OtherException. split; [reflexivity|]. right; right.
      split; [reflexivity|]. split; [|exact Hs].
      exists text. split; [reflexivity|]. now destruct text.
    - intros e H. inversion H; subst. exists e0. split; [reflexivity|].
      now left. }
  split; [|split; [exact Hraise|]].
  - unfold get_ticket.
    destruct (_call_mcp_tool _ _ (lit "get_cr") _) as [v|e0].
    + destruct (truthy v) eqn:Et; cbn [negb].
      * split.
        -- destruct v; try discriminate.
           now destruct (_get_ticket_sections _ _ _ _ _).
        -- intros (v' & E & Hv). inversion E; subst. congruence.
      * split; [|reflexivity]. intros _. now exists v.
    + split; [discriminate|]. now intros (v & E & _).
  - intros Hp e H.
    destruct (Hraise e H) as (cause & -> & [Hc|[Hc|Hc]]); exists cause;
      (split; [reflexivity|]); [now left | now right |].
    destruct Hc as (_ & _ & n & f & p & _ & _ & Hn & _).
    rewrite Hp in Hn. discriminate.
Qed.

(** *** Warnings *)

(** What the loop prints, whatever the stream does: the warnings of the
    failing sections up to the first one the stream does not print. *)
Lemma fetch_sections_shown (project key : str) (names : list str)
  (sections sections' : list (str * str)) (printed printed' : list warning)
  (left_with : option exn) :
  fetch_sections json_loads run_server stdout_prints project key names
    sections printed
  = (sections', printed', left_with) ->
  exists shown rest,
    failure_warnings json_loads run_server project key names = shown ++ rest
    /\ printed' = printed ++ shown
    /\ (left_with = None -> rest = [])
    /\ (left_with <> None -> rest <> []).
Proof.
  revert sections printed.
  induction names as [|section_name names IH]; intros sections printed.
  - cbn [fetch_sections]. intros H; inversion H; subst. exists [], [].
    split; [reflexivity|]. split; [now rewrite app_nil_r|].
    split; congruence.
  - cbn [fetch_sections failure_warnings flat_map].
    rewrite fetch_section_run.
    destruct (section_failure json_loads run_server project key section_name)
      as [cause|] eqn:Ef.
    + destruct (stdout_prints printed
                  (SectionWarning section_name key cause)) eqn:Ep.
      * intros H. destruct (IH _ _ H) as (shown & rest & E & Ep' & Hn & Hs).
        exists (SectionWarning section_name key cause :: shown), rest.
        fold (failure_warnings json_loads run_server project key names).
        rewrite E, Ep', <- app_assoc. repeat split; auto.
      * intros H; inversion H; subst.
        exists [], ([SectionWarning section_name key cause]
                    ++ failure_warnings json_loads run_server project key
                         names).
        rewrite app_nil_r. repeat split; try discriminate.
    + intros H. destruct (IH _ _ H) as (shown & rest & E & Ep' & Hn & Hs).
      exists shown, rest.
      fold (failure_warnings json_loads run_server project key names).
      now rewrite E.
Qed.

(** X13.  With an output stream that prints every warning, the warnings printed
    while the sections are fetched are, in order, those of the section names
    whose call raised or returned a non-text value, each with its cause.
    Whatever the stream does, what is printed is the beginning of that list,
    followed by the overall warning when the list was not printed to its end
    and the stream prints that one.  A call that returns a text from which
    nothing is extracted leaves the section out without a warning. *)
Theorem section_warnings_exact (project key : str) :
  ((forall p w, stdout_prints p w = true) ->
   exists sections,
     sections_and_warnings json_loads run_server stdout_prints project key
     = (Ok sections,
        failure_warnings json_loads run_server project key section_names))
  /\ (exists shown rest,
        failure_warnings json_loads run_server project key section_names
        = shown ++ rest
        /\ ((rest = []
             /\ snd (sections_and_warnings json_loads run_server
                       stdout_prints project key) = shown)
            \/ (rest <> []
                /\ (snd (sections_and_warnings json_loads run_server
                           stdout_prints project key)
                    = shown ++ [SectionsWarning key OtherException]
                    \/ sections_and_warnings json_loads run_server
                         stdout_prints project key
                       = (Raise OtherException, shown)))))
  /\ (forall section_name text,
        _call_mcp_tool json_loads run_server (lit "get_cr_section")
          (section_params project key section_name) = Ok (PStr text) ->
        section_failure json_loads run_server project key section_name
        = None).
Proof.
  split; [|split].
  - intros Hp. unfold sections_and_warnings.
    rewrite fetch_sections_printing by exact Hp.
    eexists. reflexivity.
  - unfold sections_and_warnings.
    destruct (fetch_sections json_loads run_server stdout_prints project key
                section_names [] []) as [[s p] o] eqn:Ef.
    destruct (fetch_sections_shown _ _ _ _ _ _ _ _ Ef)
      as (shown & rest & E & Ep & Hn & Hs).
    cbn [app] in Ep. subst p. exists shown, rest. split; [exact E|].
    destruct o as [e|].
    + right. split; [apply Hs; discriminate|].
      destruct (fetch_sections_left _ _ _ _ _ _ _ _ Ef) as (-> & _).
      destruct (stdout_prints shown (SectionsWarning key OtherException));
        [left | right]; reflexivity.
    + left. split; [now apply Hn | reflexivity].
  - intros section_name text E. unfold section_failure. now rewrite E.
Qed.

(** X21.  With an output stream that prints every warning, section failures are
    absorbed: once the attribute call has returned a non-empty text,
    [get_ticket] returns a record whose description is what the description
    call alone gives and whose rationale is what the rationale call alone
    gives, the extracted text when the call returns text from which something
    is extracted and nothing when the call raises or nothing is extracted. *)
Theorem printed_warnings_absorb_failures (project key text : str) :
  (forall p w, stdout_prints p w = true) ->
  _call_mcp_tool json_loads run_server (lit "get_cr")
    [ (lit "project", PStr project); (lit "key", PStr key) ]
  = Ok (PStr text) ->
  text <> [] ->
  exists ticket,
    get_ticket json_loads run_server stdout_prints project key
    = Ok (Some ticket)
    /\ description ticket
       = section_value json_loads run_server project key
           (lit "## Description")
    /\ rationale ticket
       = section_value json_loads run_server project key (lit "## Rationale")
    /\ (forall section_name e,
          _call_mcp_tool json_loads run_server (lit "get_cr_section")
            (section_params project key section_name) = Raise e ->
          section_value json_loads run_server project key section_name
          = None)
    /\ (forall section_name response,
          _call_mcp_tool json_loads run_server (lit "get_cr_section")
            (section_params project key section_name) = Ok (PStr response) ->
          _extract_section_content response = [] ->
          section_value json_loads run_server project key section_name
          = None).
Proof.
  intros Hp Hattrs Htext.
  destruct (get_ticket_sections_spec json_loads run_server stdout_prints
              project key Hp) as (sections & Es & Hd & Hr).
  unfold get_ticket, _get_ticket_sections. rewrite Hattrs, Es.
  destruct text as [|c text]; [congruence|].
  cbn [truthy nonempty negb fst].
  eexists. split; [reflexivity|]. cbn [description rationale].
  repeat split.
  - exact Hd.
  - exact Hr.
  - intros section_name e E. unfold section_value. now rewrite E.
  - intros section_name response E Hx. unfold section_value.
    now rewrite E, Hx.
Qed.

End RecordExtras.

Section RecordWitnesses.
Import PyStr MCPClient.
Local Open Scope N_scope.

Definition demo_ticket : TicketData :=
  {| key := lit "MDT-066"; title := lit "No Title"; type := lit "Unknown";
     priority := lit "Medium"; status := lit "Open";
     description := None; rationale := Some (lit "Because.") |}.

Lemma get_ticket_record_invariant_witness :
  MCPClient.key demo_ticket = lit "MDT-066"
  /\ strip (lit "Because.") = lit "Because.".
Proof.
  destruct (get_ticket_record_invariant demo_loads demo_server
              (fun _ _ => true)
              (lit "MDT") (lit "MDT-066") demo_ticket eq_refl)
    as (Hk & _ & _ & Hr).
  split; [exact Hk|]. now apply (Hr (lit "Because.")).
Defined.

Lemma get_ticket_without_record_witness :
  get_ticket (fun _ => JsonValue (PDict [ (lit "result", PStr []) ]))
    (fun _ => Exited 0 (lit "{}") []) (fun _ _ => true)
    (lit "MDT") (lit "MDT-404")
  = Ok None.
Proof.
  apply (proj1 (get_ticket_without_record
                  (fun _ => JsonValue (PDict [ (lit "result", PStr []) ]))
                  (fun _ => Exited 0 (lit "{}") []) (fun _ _ => true)
                  (lit "MDT") (lit "MDT-404"))).
  now exists (PStr []).
Defined.

Lemma section_warnings_exact_witness :
  exists sections,
    sections_and_warnings demo_loads demo_server (fun _ _ => true)
      (lit "MDT") (lit "MDT-066")
    = (Ok sections,
       [SectionWarning (lit "## Description") (lit "MDT-066")
          (Unexpected (ServerError (lit "boom")))]).
Proof.
  exact (proj1 (section_warnings_exact demo_loads demo_server
                  (fun _ _ => true) (lit "MDT") (lit "MDT-066"))
           (fun _ _ => eq_refl)).
Defined.

Lemma printed_warnings_absorb_failures_witness :
  exists ticket,
    get_ticket demo_loads demo_server (fun _ _ => true)
      (lit "MDT") (lit "MDT-066")
    = Ok (Some ticket)
    /\ description ticket = None
    /\ rationale ticket = Some (lit "Because.").
Proof.
  destruct (printed_warnings_absorb_failures demo_loads demo_server
              (fun _ _ => true) (lit "MDT") (lit "MDT-066")
              (lit "- Status: Open") (fun _ _ => eq_refl) eq_refl
              ltac:(discriminate))
    as (ticket & E & Hd & Hr & _).
  exists ticket. split; [exact E|]. split; [exact Hd | exact Hr].
Defined.

End RecordWitnesses.

(** ** The line extractor and the sentence extractor *)

Section ExtractorExtras.
Import PyStr LLMProcessor.
Local Open Scope N_scope.

(** Once the skip flag is set, nothing more is collected. *)
Lemma meaningful_loop_suppressed (acc lines : list str) :
  meaningful_loop true acc lines = acc.
Proof.
  induction lines as [|line rest IH]; cbn [meaningful_loop]; [reflexivity|].
  destruct (negb (nonempty (strip line))); [exact IH|].
  destruct (_should_skip_line (strip line)).
  - now destruct (_is_section_header (strip line)).
  - cbn [negb andb]. now destruct (3 <=? length acc)%nat.
Qed.

Lemma section_header_skipped (line : str) :
  _is_section_header line = true -> _should_skip_line line = true.
Proof.
  unfold _is_section_header, _should_skip_line. cbv zeta.
  destruct (startswith (lit "#") line || _); [reflexivity|].
  unfold any_in. cbn [existsb]. intros H.
  repeat (apply orb_true_iff in H as [H|H];
          [rewrite H; rewrite ?orb_true_r; reflexivity|]).
  discriminate.
Qed.

Lemma section_header_not_blank (line : str) :
  _is_section_header line = true -> nonempty line = true.
Proof. now destruct line. Qed.

Lemma meaningful_loop_until_header (skip_section : bool)
  (acc before after : list str) (header : str) :
  _is_section_header (strip header) = true ->
  meaningful_loop skip_section acc (before ++ header :: after)
  = meaningful_loop skip_section acc before.
Proof.
  intros Hh. revert skip_section acc.
  induction before as [|line rest IH]; intros skip acc.
  - cbn [app meaningful_loop].
    rewrite (section_header_not_blank _ Hh), (section_header_skipped _ Hh), Hh.
    cbn [negb]. apply meaningful_loop_suppressed.
  - cbn [app meaningful_loop].
    destruct (negb (nonempty (strip line))); [apply IH|].
    destruct (_should_skip_line (strip line)); [apply IH|].
    destruct (negb skip && _is_meaningful_line (strip line)).
    + destruct (30 <? length (_clean_line (strip line)))%nat; cbv beta iota.
      * destruct (3 <=? length (acc ++ [_clean_line (strip line)]))%nat;
          [reflexivity | apply IH].
      * destruct (3 <=? length acc)%nat; [reflexivity | apply IH].
    + cbv beta iota. destruct (3 <=? length acc)%nat; [reflexivity | apply IH].
Qed.

Lemma split_from_char_pieces (c : N) (cur s : str) :
  ~ In c cur ->
  Forall (fun piece => ~ In c piece) (split_from [c] 0 cur s).
Proof.
  revert cur. induction s as [|x s IH]; intros cur Hc; cbn [split_from].
  - repeat constructor. now rewrite <- in_rev.
  - cbn [startswith]. rewrite andb_true_r.
    destruct (N.eqb_spec c x) as [->|Hne].
    + constructor; [now rewrite <- in_rev|]. cbn [length pred].
      apply IH. intros [].
    + apply IH. intros [E|E]; [congruence | contradiction].
Qed.

Lemma split_from_char_app (c : N) (cur line rest : str) :
  ~ In c line ->
  split_from [c] 0 cur (line ++ rest)
  = match rest with
    | [] => [rev cur ++ line]
    | x :: rest' =>
        if c =? x then (rev cur ++ line) :: split_from [c] 0 [] rest'
        else split_from [c] 0 (rev line ++ cur) rest
    end.
Proof.
  revert cur. induction line as [|y line IH]; intros cur Hc.
  - cbn [app rev]. rewrite app_nil_r. destruct rest as [|x rest'];
      [reflexivity|].
    cbn [split_from startswith]. rewrite andb_true_r.
    now destruct (c =? x).
  - cbn [app split_from startswith]. rewrite andb_true_r.
    destruct (N.eqb_spec c y) as [->|Hne]; [exfalso; apply Hc; now left|].
    rewrite IH by (intros H; apply Hc; now right).
    cbn [rev]. rewrite <- !app_assoc. cbn [app]. reflexivity.
Qed.

(** Splitting at a separator character what was joined with it gives the
    pieces back, when no piece holds the separator. *)
Lemma split_join_char (c : N) (line : str) (lines : list str) :
  Forall (fun l => ~ In c l) (line :: lines) ->
  split [c] (join [c] (line :: lines)) = line :: lines.
Proof.
  revert line. induction lines as [|m lines IH]; intros line H.
  - cbn [join]. unfold split.
    rewrite <- (app_nil_r line) at 1.
    rewrite split_from_char_app by now inversion H. reflexivity.
  - change (join [c] (line :: m :: lines))
      with (line ++ c :: join [c] (m :: lines)).
    unfold split. rewrite split_from_char_app by now inversion H.
    rewrite N.eqb_refl. cbn [rev app]. f_equal.
    apply IH. now inversion H.
Qed.

(** X14.  A line that names one of the six section headers ends the extraction:
    the result is that of the text before that line, and the lines after it
    are never looked at, whatever they are.  The skip flag it sets is not
    cleared again: started with the flag set, the loop collects nothing. *)
Theorem section_header_ends_extraction
  (content : str) (before after : list str) (header : str) :
  split [nl] content = before ++ header :: after ->
  _is_section_header (strip header) = true ->
  _extract_meaningful_sentences content
  = _extract_meaningful_sentences (join [nl] before)
  /\ forall acc lines, meaningful_loop true acc lines = acc.
Proof.
  intros Hs Hh. split; [|apply meaningful_loop_suppressed].
  unfold _extract_meaningful_sentences at 1. rewrite Hs.
  rewrite meaningful_loop_until_header by assumption.
  destruct before as [|line lines]; [reflexivity|].
  unfold _extract_meaningful_sentences. rewrite split_join_char; [reflexivity|].
  pose proof (split_from_char_pieces nl [] content (fun f => f)) as Hp.
  fold (split [nl] content) in Hp. rewrite Hs in Hp.
  now apply Forall_app in Hp as [Hp _].
Qed.

Definition header_then_text : str :=
  join [nl]
    [ lit "This first sentence is long enough to qualify as a summary.";
      lit "Implementation notes";
      lit "This sentence is long enough as well, yet it is never read." ].

Lemma section_header_ends_extraction_witness :
  _extract_meaningful_sentences header_then_text
  = _extract_meaningful_sentences
      (lit "This first sentence is long enough to qualify as a summary.").
Proof.
  apply (proj1 (section_header_ends_extraction header_then_text
                  [lit "This first sentence is long enough to qualify as a summary."]
                  [lit "This sentence is long enough as well, yet it is never read."]
                  (lit "Implementation notes") eq_refl eq_refl)).
Defined.

(** *** What the extracted lines look like *)

Lemma join_nil_in (c : N) (pieces : list str) :
  In c (join [] pieces) -> Exists (fun piece => In c piece) pieces.
Proof.
  induction pieces as [|p ps IH]; [intros []|].
  destruct ps as [|q ps].
  - intros H. now left.
  - change (join [] (p :: q :: ps)) with (p ++ [] ++ join [] (q :: ps)).
    cbn [app]. intros H. apply in_app_or in H as [H|H];
      [now left | right; auto].
Qed.

Lemma replace_char_removes (c : N) (s : str) : ~ In c (replace [c] [] s).
Proof.
  unfold replace, split. intros H. apply join_nil_in in H.
  pose proof (split_from_char_pieces c [] s (fun f => f)) as Hp.
  rewrite Forall_forall in Hp. apply Exists_exists in H as (p & Hin & Hc).
  exact (Hp p Hin Hc).
Qed.

Lemma strip_in (x : N) (s : str) : In x (strip s) -> In x s.
Proof.
  unfold strip, lstrip. intros H.
  destruct (rstrip_split (drop_while is_space s)) as (d1 & E1 & _).
  destruct (drop_while_split is_space s) as (d0 & E0 & _).
  rewrite E0, E1. apply in_or_app. right. apply in_or_app. now left.
Qed.

Lemma clean_line_shape (line : str) :
  ~ In 42 (_clean_line line) /\ strip (_clean_line line) = _clean_line line.
Proof.
  unfold _clean_line. split; [|apply strip_idempotent].
  intros H. apply strip_in in H.
  exact (replace_char_removes 42 _ H).
Qed.

(** A line that the extractor returns. *)
Definition summary_line (line : str) : Prop :=
  (30 < length line)%nat /\ ~ In 42 line /\ strip line = line.

Lemma meaningful_loop_shape (skip_section : bool) (acc lines : list str) :
  Forall summary_line acc -> (length acc <= 2)%nat ->
  Forall summary_line (meaningful_loop skip_section acc lines)
  /\ (length (meaningful_loop skip_section acc lines) <= 3)%nat.
Proof.
  revert skip_section acc.
  induction lines as [|line rest IH]; intros skip acc Hacc Hlen;
    cbn [meaningful_loop]; [split; [assumption | lia]|].
  destruct (negb (nonempty (strip line))); [now apply IH|].
  destruct (_should_skip_line (strip line)); [now apply IH|].
  destruct (negb skip && _is_meaningful_line (strip line)).
  - destruct (Nat.ltb_spec 30 (length (_clean_line (strip line)))) as [Hl|Hl];
      cbv beta iota.
    + assert (Hnew : Forall summary_line (acc ++ [_clean_line (strip line)])).
      { apply Forall_app. split; [assumption|]. repeat constructor.
        - exact Hl.
        - apply clean_line_shape.
        - apply clean_line_shape. }
      destruct (Nat.leb_spec 3 (length (acc ++ [_clean_line (strip line)])))
        as [H3|H3].
      * split; [assumption|]. rewrite length_app in *. simpl in *. lia.
      * apply IH; [assumption | lia].
    + destruct (3 <=? length acc)%nat;
        [split; [assumption | lia] | now apply IH].
  - cbv beta iota. destruct (3 <=? length acc)%nat;
      [split; [assumption | lia] | now apply IH].
Qed.

(** X15.  The line extractor returns at most three lines; each of them is longer
    than 30 characters, holds no star, and has no whitespace at either
    end. *)
Theorem meaningful_sentences_shape (content : str) :
  (length (_extract_meaningful_sentences content) <= 3)%nat
  /\ Forall summary_line (_extract_meaningful_sentences content).
Proof.
  unfold _extract_meaningful_sentences.
  destruct (meaningful_loop_shape false [] (split [nl] content))
    as [Hf Hl]; [constructor | simpl; lia | now split].
Qed.

(** X16.  The sentence extractor returns at most one sentence: a piece of the text
    between full stops followed by a space, trimmed, longer than 20
    characters.  It returns none exactly when no piece is that long once
    trimmed. *)
Theorem simple_sentences_shape (content : str) :
  (length (_extract_simple_sentences content) <= 1)%nat
  /\ (forall sentence, In sentence (_extract_simple_sentences content) ->
        (20 < length sentence)%nat
        /\ exists piece, In piece (split (lit ". ") content)
                         /\ sentence = strip piece)
  /\ (_extract_simple_sentences content = [] <->
      forallb (fun piece => (length (strip piece) <=? 20)%nat)
        (split (lit ". ") content) = true).
Proof.
  unfold _extract_simple_sentences. cbv zeta.
  set (qualifies := fun s : str =>
         nonempty (strip s) && (20 <? length (strip s))%nat).
  set (sentences := map strip (filter qualifies (split (lit ". ") content))).
  assert (Hin : forall s, In s sentences ->
            (20 < length s)%nat
            /\ exists piece, In piece (split (lit ". ") content)
                             /\ s = strip piece).
  { intros s Hs. subst sentences. apply in_map_iff in Hs as (x & <- & Hx).
    apply filter_In in Hx as [Hx Hq]. subst qualifies. cbv beta in Hq.
    apply andb_true_iff in Hq as [_ Hq]. apply Nat.ltb_lt in Hq.
    split; [exact Hq | now exists x]. }
  assert (Hnil : sentences = [] <->
            forallb (fun piece => (length (strip piece) <=? 20)%nat)
              (split (lit ". ") content) = true).
  { clear Hin. subst sentences qualifies.
    induction (split (lit ". ") content) as [|p ps IH]; [now split|].
    cbn [filter forallb map].
    destruct (Nat.ltb_spec 20 (length (strip p))) as [Hl|Hl].
    - assert (E : nonempty (strip p) = true)
        by (destruct (strip p); [simpl in Hl; lia | reflexivity]).
      rewrite E. cbn [andb map].
      assert (E2 : (length (strip p) <=? 20)%nat = false)
        by (apply Nat.leb_gt; lia).
      rewrite E2. split; discriminate.
    - rewrite andb_false_r.
      assert (E2 : (length (strip p) <=? 20)%nat = true)
        by (apply Nat.leb_le; lia).
      rewrite E2. exact IH. }
  destruct (find _ (firstn 3 sentences)) as [s|] eqn:Ef.
  - repeat split.
    + simpl; lia.
    + destruct H as [<-|[]]. apply find_some in Ef as [Hs _].
      apply in_firstn in Hs. now apply Hin.
    + destruct H as [<-|[]]. apply find_some in Ef as [Hs _].
      apply in_firstn in Hs. now apply Hin.
    + discriminate.
    + intros H. apply Hnil in H. rewrite H in Ef. discriminate.
  - repeat split.
    + rewrite length_firstn. lia.
    + apply in_firstn in H. now apply Hin.
    + apply in_firstn in H. now apply Hin.
    + intros H. apply Hnil. now destruct sentences.
    + intros H. apply Hnil in H. now rewrite H.
Qed.

Definition two_pieces : str :=
  lit "The first sentence is long enough here. Short.".

Lemma simple_sentences_shape_witness :
  In (lit "The first sentence is long enough here")
     (_extract_simple_sentences two_pieces)
  /\ (20 < length (lit "The first sentence is long enough here"))%nat.
Proof.
  assert (H : In (lit "The first sentence is long enough here")
                (_extract_simple_sentences two_pieces)) by (now left).
  split; [exact H|].
  exact (proj1 (proj1 (proj2 (simple_sentences_shape two_pieces)) _ H)).
Defined.

(** *** The length of the fallback summary *)

Lemma format_summary_length (sentences : list str) :
  (length (_format_summary_from_sentences sentences) <= 153)%nat.
Proof.
  unfold _format_summary_from_sentences.
  destruct sentences as [|first others]; [vm_compute; lia|].
  set (text := join [space] (firstn 2 (first :: others))).
  assert (Hcut : forall cap, (cap <= 150)%nat ->
            (length (rsplit1_head space (firstn cap text) ++ ellipsis)
             <= 153)%nat).
  { intros cap Hcap. rewrite length_app.
    pose proof (rsplit1_head_length space (firstn cap text)) as Hl.
    rewrite length_firstn in Hl. change (length ellipsis) with 3%nat. lia. }
  destruct (Nat.ltb_spec 150 (length text)); [apply Hcut; lia|].
  destruct (Nat.ltb_spec 120 (length text)); [apply Hcut; lia | lia].
Qed.

(** X17.  Whatever the content, the fallback summary has between 1 and 153
    characters. *)
Theorem fallback_summary_length (content : str) :
  (1 <= length (_fallback_summary content) <= 153)%nat.
Proof.
  split.
  - pose proof (fallback_summary_nonempty content) as H.
    destruct (_fallback_summary content); [congruence | simpl; lia].
  - unfold _fallback_summary.
    destruct (_extract_meaningful_sentences content);
      [|apply format_summary_length].
    destruct (_extract_simple_sentences content);
      [vm_compute; lia | apply format_summary_length].
Qed.

End ExtractorExtras.

(** ** The ladder, attempt by attempt *)

Section LadderExtras.
Import PyStr LLMProcessor.
Local Open Scope N_scope.

Variable backend : list request -> request -> outcome str.

(** The candidate of an attempt made after the requests in [log]: the
    trimmed answer of the backend when it passes validation. *)
Definition candidate (content : str) (log : list request) (attempt : nat)
  : option str :=
  match backend log (request_of content attempt) with
  | Ret output =>
      if nonempty (strip output) && _is_valid_summary (strip output)
      then Some (strip output) else None
  | Exc => None
  end.

Lemma attempt_summary_run (content : str) (attempt : nat)
  (log : list request) :
  _attempt_summary backend content _get_system_prompt attempt log
  = (match backend log (request_of content attempt) with
     | Ret output => Ret (strip output)
     | Exc => Exc
     end, log ++ [request_of content attempt]).
Proof.
  unfold _attempt_summary, request_of.
  destruct (_get_attempt_params content attempt) as [[u t] m].
  now destruct (backend log _).
Qed.

(** One turn of the loop: with a candidate the loop returns it; without one
    (the backend raised, or its answer was empty or invalid) the third turn
    returns the fallback and an earlier turn goes on to the next attempt.  In
    both cases exactly the request of the attempt is added to the log. *)
Lemma attempts_loop_turn (content : str) (attempt : nat) (rest : list nat)
  (log : list request) :
  attempts_loop backend content _get_system_prompt (attempt :: rest) log
  = match candidate content log attempt with
    | Some summary => (Ret summary, log ++ [request_of content attempt])
    | None =>
        match backend log (request_of content attempt) with
        | Exc =>
            if (attempt =? 3)%nat
            then (Ret (_fallback_summary content),
                  log ++ [request_of content attempt])
            else attempts_loop backend content _get_system_prompt rest
                   (log ++ [request_of content attempt])
        | Ret _ =>
            attempts_loop backend content _get_system_prompt rest
              (log ++ [request_of content attempt])
        end
    end.
Proof.
  cbn [attempts_loop]. unfold bind, try_except, ret, candidate.
  rewrite attempt_summary_run.
  destruct (backend log (request_of content attempt)) as [output|].
  - now destruct (nonempty (strip output) && _is_valid_summary (strip output)).
  - now destruct (attempt =? 3)%nat.
Qed.

(** X18.  The three-attempt path returns the first candidate that passes
    validation, after one, two or three requests; when none of the three
    attempts gives one, whether the backend raised or answered badly, it
    returns the fallback summary after exactly three requests.  So what it
    returns passes validation or is the fallback summary.  It is the path
    [generate_summary] takes for a content longer than 500 characters. *)
Theorem ladder_first_valid_wins (content : str) (log : list request) :
  let r1 := request_of content 1 in
  let r2 := request_of content 2 in
  let r3 := request_of content 3 in
  _generate_summary_with_attempts backend content log
  = match candidate content log 1 with
    | Some summary => (Ret summary, log ++ [r1])
    | None =>
        match candidate content (log ++ [r1]) 2 with
        | Some summary => (Ret summary, log ++ [r1; r2])
        | None =>
            (Ret (match candidate content (log ++ [r1; r2]) 3 with
                  | Some summary => summary
                  | None => _fallback_summary content
                  end),
             log ++ [r1; r2; r3])
        end
    end
  /\ (forall summary log',
        _generate_summary_with_attempts backend content log
        = (Ret summary, log') ->
        _is_valid_summary summary = true
        \/ summary = _fallback_summary content)
  /\ ((500 < length content)%nat ->
      generate_summary backend content [] log
      = _generate_summary_with_attempts backend content log).
Proof.
  cbv zeta.
  assert (Hvalid : forall l a s,
            candidate content l a = Some s -> _is_valid_summary s = true).
  { intros l a s. unfold candidate.
    destruct (backend l _) as [output|]; [|discriminate].
    destruct (nonempty (strip output)); [|discriminate].
    cbn [andb]. destruct (_is_valid_summary (strip output)) eqn:E;
      [|discriminate].
    intros H; inversion H; now subst. }
  assert (Hrun :
    _generate_summary_with_attempts backend content log
    = match candidate content log 1 with
      | Some summary => (Ret summary, log ++ [request_of content 1])
      | None =>
          match candidate content (log ++ [request_of content 1]) 2 with
          | Some summary =>
              (Ret summary,
               log ++ [request_of content 1; request_of content 2])
          | None =>
              (Ret (match candidate content
                            (log ++ [request_of content 1;
                                     request_of content 2]) 3 with
                    | Some summary => summary
                    | None => _fallback_summary content
                    end),
               log ++ [request_of content 1; request_of content 2;
                       request_of content 3])
          end
      end).
  { unfold _generate_summary_with_attempts. cbv zeta.
    rewrite attempts_loop_turn.
    destruct (candidate content log 1) as [s1|] eqn:E1; [reflexivity|].
    assert (E : attempts_loop backend content _get_system_prompt
                  [2; 3]%nat (log ++ [request_of content 1])
                = match candidate content (log ++ [request_of content 1]) 2
                  with
                  | Some summary =>
                      (Ret summary,
                       log ++ [request_of content 1; request_of content 2])
                  | None =>
                      (Ret (match candidate content
                                    (log ++ [request_of content 1;
                                             request_of content 2]) 3 with
                            | Some summary => summary
                            | None => _fallback_summary content
                            end),
                       log ++ [request_of content 1; request_of content 2;
                               request_of content 3])
                  end).
    { rewrite attempts_loop_turn.
      replace ((log ++ [request_of content 1]) ++ [request_of content 2])
        with (log ++ [request_of content 1; request_of content 2])
        by now rewrite <- app_assoc.
      destruct (candidate content (log ++ [request_of content 1]) 2)
        as [s2|] eqn:E2; [reflexivity|].
      assert (E3 : attempts_loop backend content _get_system_prompt [3]%nat
                     (log ++ [request_of content 1; request_of content 2])
                   = (Ret (match candidate content
                                   (log ++ [request_of content 1;
                                            request_of content 2]) 3 with
                           | Some summary => summary
                           | None => _fallback_summary content
                           end),
                      log ++ [request_of content 1; request_of content 2;
                              request_of content 3])).
      { rewrite attempts_loop_turn.
        replace ((log ++ [request_of content 1; request_of content 2])
                 ++ [request_of content 3])
          with (log ++ [request_of content 1; request_of content 2;
                        request_of content 3])
          by now rewrite <- app_assoc.
        destruct (candidate content _ 3); [reflexivity|].
        now destruct (backend _ (request_of content 3)). }
      cbn [Nat.eqb]. rewrite E3.
      now destruct (backend _ (request_of content 2)). }
    cbn [Nat.eqb]. rewrite E.
    now destruct (backend log (request_of content 1)). }
  split; [exact Hrun|]. split.
  - intros summary log'. rewrite Hrun.
    destruct (candidate content log 1) as [s1|] eqn:E1.
    { intros H; inversion H; subst. left. eapply Hvalid, E1. }
    destruct (candidate content (log ++ [request_of content 1]) 2)
      as [s2|] eqn:E2.
    { intros H; inversion H; subst. left. eapply Hvalid, E2. }
    destruct (candidate content _ 3) as [s3|] eqn:E3;
      intros H; inversion H; subst.
    + left. eapply Hvalid, E3.
    + now right.
  - intros Hlen. unfold generate_summary. cbv zeta.
    destruct content as [|c content]; [simpl in Hlen; lia|].
    cbn [nonempty andb].
    now apply Nat.ltb_lt in Hlen as ->.
Qed.

(** X19.  For a content of at most 500 characters, given as the description or as
    the rationale, the backend receives exactly one request, that of attempt
    1; the summary is the trimmed answer whenever that is not empty, and the
    fallback summary when the answer is empty or the backend raised. *)
Theorem short_content_single_request (c : N) (content : str)
  (log : list request) :
  (length (c :: content) <= 500)%nat ->
  let expected :=
    (Ret (match backend log (request_of (c :: content) 1) with
          | Ret output =>
              if nonempty (strip output) then strip output
              else _fallback_summary (c :: content)
          | Exc => _fallback_summary (c :: content)
          end),
     log ++ [request_of (c :: content) 1]) in
  generate_summary backend (c :: content) [] log = expected
  /\ generate_summary backend [] (c :: content) log = expected.
Proof.
  intros Hlen. cbv zeta.
  assert (E : _single_summary_attempt backend (c :: content) log
              = (Ret (match backend log (request_of (c :: content) 1) with
                      | Ret output =>
                          if nonempty (strip output) then strip output
                          else _fallback_summary (c :: content)
                      | Exc => _fallback_summary (c :: content)
                      end),
                 log ++ [request_of (c :: content) 1])).
  { destruct (single_summary_attempt_spec backend (c :: content) log)
      as (s & -> & _ & Hs).
    now destruct (backend log (request_of (c :: content) 1)); subst s. }
  unfold generate_summary. cbv zeta. cbn [nonempty andb].
  apply Nat.leb_le in Hlen. rewrite Nat.leb_antisym in Hlen.
  apply negb_true_iff in Hlen. rewrite Hlen. now split.
Qed.

End LadderExtras.

Section LadderWitnesses.
Import PyStr LLMProcessor.
Local Open Scope N_scope.

Lemma short_content_single_request_witness :
  generate_summary (fun _ _ => Exc) (lit "short text") [] []
  = (Ret unable_to_summarize, [request_of (lit "short text") 1]).
Proof.
  assert (Hlen : (length (115%N :: lit "hort text") <= 500)%nat)
    by (vm_compute; lia).
  exact (proj1 (short_content_single_request (fun _ _ => Exc)
                  115 (lit "hort text") [] Hlen)).
Defined.

Definition long_content : str := concat (repeat (lit "lorem ipsum. ") 50).

Lemma ladder_first_valid_wins_witness :
  generate_summary
    (fun _ _ => Ret (lit "Adds a cache in front of the ticket store."))
    long_content [] []
  = (Ret (lit "Adds a cache in front of the ticket store."),
     [request_of long_content 1]).
Proof.
  destruct (ladder_first_valid_wins
              (fun _ _ => Ret (lit "Adds a cache in front of the ticket store."))
              long_content []) as (Hrun & _ & Hgen).
  rewrite Hgen by (vm_compute; lia). rewrite Hrun. reflexivity.
Defined.

End LadderWitnesses.

(** ** Diagnostic lines around the response *)

Section NoiseExtras.
Import PyStr MCPClient.
Local Open Scope N_scope.

Lemma find_json_line_skip (skipped rest : list str) :
  forallb (fun l => negb (brace_line l)) skipped = true ->
  find_json_line (skipped ++ rest) = find_json_line rest.
Proof.
  induction skipped as [|l skipped IH]; [reflexivity|].
  cbn [forallb app find_json_line]. intros H.
  apply andb_true_iff in H as [Hl Hs]. apply negb_true_iff in Hl.
  unfold brace_line in Hl. rewrite Hl. now apply IH.
Qed.

(** X20.  After an exit with status 0, the outcome of a call is decided by the
    last line of the trimmed output that starts with a brace once trimmed:
    whatever lines come before it, the call behaves as the parsed response
    says when [json.loads] returns one, fails with the JSON error when
    [json.loads] raises its decode error, and fails with a different
    unexpected error when [json.loads] raises anything else.  When no line
    starts with a brace the call fails with the no-response error. *)
Theorem diagnostic_lines_tolerated
  (json_loads : str -> json_result) (run_server : pyval -> process_run)
  (tool_name : str) (params : list (str * pyval)) (stdout stderr : str) :
  run_server (make_request tool_name params) = Exited 0 stdout stderr ->
  (forall before line after,
     split [nl] (strip stdout) = before ++ line :: after ->
     brace_line line = true ->
     forallb (fun l => negb (brace_line l)) after = true ->
     _call_mcp_tool json_loads run_server tool_name params
     = match json_loads (strip line) with
       | JsonValue response => or_unexpected (handle_response response)
       | JsonDecodeError => Raise (Unexpected InvalidJson)
       | JsonOtherError => Raise (Unexpected OtherException)
       end)
  /\ (forallb (fun l => negb (brace_line l)) (split [nl] (strip stdout))
      = true ->
      _call_mcp_tool json_loads run_server tool_name params
      = Raise (Unexpected NoJsonResponse)).
Proof.
  intros Hrun. split.
  - intros before line after Hs Hb Ha.
    unfold _call_mcp_tool. rewrite Hrun. cbn [Z.eqb negb].
    rewrite Hs, rev_app_distr. cbn [rev]. rewrite <- app_assoc.
    rewrite find_json_line_skip
      by (rewrite forallb_forall in Ha |- *; intros x Hx; apply Ha;
          now apply in_rev).
    cbn [app find_json_line]. unfold brace_line in Hb. rewrite Hb.
    now destruct (json_loads (strip line)).
  - intros Hnone. unfold _call_mcp_tool. rewrite Hrun. cbn [Z.eqb negb].
    rewrite <- (app_nil_r (rev (split [nl] (strip stdout)))).
    rewrite find_json_line_skip
      by (rewrite forallb_forall in Hnone |- *; intros x Hx; apply Hnone;
          now apply in_rev).
    reflexivity.
Qed.

Lemma diagnostic_lines_tolerated_witness :
  _call_mcp_tool only_ab
    (fun _ => Exited 0
                (join [nl] [lit "server started"; lit "loading"; ab_line])
                [])
    (lit "get_cr") []
  = Ok (PStr (lit "AB")).
Proof.
  rewrite (proj1 (diagnostic_lines_tolerated only_ab
                    (fun _ => Exited 0
                       (join [nl] [lit "server started"; lit "loading";
                                   ab_line]) [])
                    (lit "get_cr") [] _ [] eq_refl)
             [lit "server started"; lit "loading"] ab_line []);
    reflexivity.
Defined.

End NoiseExtras.
